(** * DeepClaude chat front end: streaming decoder, session store, scroll coordinator

    A shallow embedding of [frontend/components/chat.tsx] (the [Chat]
    component) and the properties of its streaming-response state machine.

    Conventions of the embedding:
    - a JavaScript string is a [string]; one [ascii] stands for one code unit
      (the wire format of the stream is ASCII, where bytes, code units and
      characters coincide);
    - [chunk] is the text of one network read, that is the value of
      [new TextDecoder().decode(value)] at line 565;
    - React state is a record; a state setter is a record update; an effect
      ([useEffect]) is a function on the record that the scheduler runs
      after a render.  Theorems quantify over the order in which effects run
      wherever the claim allows it;
    - values supplied by the platform (a fresh UUID, a timestamp, the layout
      of the scroll container) are parameters of the handler that reads them;
    - [JSON.parse] is a parameter of the stream functions; [json_parse] below
      is an executable parser used to run them on concrete wire text;
    - the analytics calls, the model selector, the sidebar toggle and the
      elapsed-time display ([thinkingStartTime], [elapsedTime]) neither read
      nor write the state modelled here and are left out. *)

From Stdlib Require Import String Ascii List Bool Arith ZArith Lia.
From Stdlib Require DecimalString HexadecimalString.
Import ListNotations.
Local Open Scope string_scope.
Local Open Scope list_scope.

Set Warnings "-register-all".

(* ================================================================== *)
(** ** JavaScript strings *)

Module JS.

(** [s.startsWith(p)] *)
Definition startsWith (p s : string) : bool := String.prefix p s.

(** [s.slice(n)] for [n >= 0]: drop the first [n] code units. *)
Fixpoint slice_from (n : nat) (s : string) : string :=
  match n, s with
  | O, _ => s
  | S _, EmptyString => EmptyString
  | S n', String _ s' => slice_from n' s'
  end.

(** [s.slice(0, n)]: the first [n] code units (all of [s] when shorter). *)
Fixpoint slice_to (n : nat) (s : string) : string :=
  match n, s with
  | O, _ => EmptyString
  | S _, EmptyString => EmptyString
  | S n', String c s' => String c (slice_to n' s')
  end.

(** White space as [String.prototype.trim] sees it, among the code units
    below 256: TAB, LF, VT, FF, CR, SPACE and NBSP. *)
Definition isWhiteSpace (c : ascii) : bool :=
  let n := nat_of_ascii c in
  (((9 <=? n) && (n <=? 13)) || (n =? 32) || (n =? 160))%nat.

Fixpoint trimStart (s : string) : string :=
  match s with
  | String c s' => if isWhiteSpace c then trimStart s' else s
  | EmptyString => EmptyString
  end.

(** Drop trailing white space: the tail is trimmed first, and a white
    character in front of an empty rest goes too. *)
Fixpoint trimEnd (s : string) : string :=
  match s with
  | EmptyString => EmptyString
  | String c s' =>
      match trimEnd s' with
      | EmptyString => if isWhiteSpace c then EmptyString else String c EmptyString
      | t => String c t
      end
  end.

(** [s.trim()] *)
Definition trim (s : string) : string := trimEnd (trimStart s).

(** Truthiness of a string: non-empty. *)
Definition truthy_string (s : string) : bool :=
  match s with EmptyString => false | String _ _ => true end.

Definition LF : ascii := "010"%char.

(** [s.split("\n")]: the pieces between line feeds; never empty, the last
    piece is what follows the last line feed. *)
Fixpoint split_LF (s : string) : list string :=
  match s with
  | EmptyString => [EmptyString]
  | String c s' =>
      if Ascii.eqb c LF then EmptyString :: split_LF s'
      else match split_LF s' with
           | l :: ls => String c l :: ls
           | [] => [String c EmptyString]
           end
  end.

End JS.

(* ================================================================== *)
(** ** JSON values as the program sees them *)

(** A parsed JSON document.  A number carries the text that JavaScript's
  [ToString] gives for it: the program only tests numbers for truthiness
  and concatenates them to strings, and both are functions of that text.
  An object is the list of its own properties, first binding first. *)
Inductive json : Type :=
| JNull
| JBool (b : bool)
| JNumber (repr : string)
| JString (s : string)
| JArray (elems : list json)
| JObject (props : list (string * json)).

(** A JavaScript value read from a document: [None] is [undefined]. *)
Definition jsval : Type := option json.

Module Json.

(** ToBoolean.  JSON has no NaN; the zeros print as "0". *)
Definition truthy (v : jsval) : bool :=
  match v with
  | None => false
  | Some JNull => false
  | Some (JBool b) => b
  | Some (JNumber r) => negb (String.eqb r "0")
  | Some (JString s) => JS.truthy_string s
  | Some (JArray _) => true
  | Some (JObject _) => true
  end.

(** ToString, as [str + v] applies it to a value read from a document. *)
Fixpoint toString (v : json) : string :=
  match v with
  | JNull => "null"
  | JBool true => "true"
  | JBool false => "false"
  | JNumber r => r
  | JString s => s
  | JArray l =>
      (fix join (l : list json) : string :=
         match l with
         | [] => ""
         | x :: rest =>
             let sx := match x with JNull => "" | _ => toString x end in
             match rest with
             | [] => sx
             | _ :: _ => (sx ++ "," ++ join rest)%string
             end
         end) l
  | JObject _ => "[object Object]"
  end.

(** [str + v] for a value [v] that passed a truthiness test. *)
Definition concat (str : string) (v : jsval) : string :=
  match v with
  | Some j => (str ++ toString j)%string
  | None => (str ++ "undefined")%string
  end.

Fixpoint lookup (k : string) (props : list (string * json)) : jsval :=
  match props with
  | [] => None
  | (k', v) :: rest => if String.eqb k k' then Some v else lookup k rest
  end.

(** [v.k] for one of the keys the program reads ([type], [content],
    [content_type], [thinking], [text]): [None] is a TypeError (reading a
    property of [null]); no prototype defines any of these keys, so values
    that are not objects answer [undefined]. *)
Definition get (k : string) (v : json) : option jsval :=
  match v with
  | JNull => None
  | JObject props => Some (lookup k props)
  | _ => Some None
  end.

(** [v === s] for a string literal [s]. *)
Definition strictEqString (v : jsval) (s : string) : bool :=
  match v with
  | Some (JString t) => String.eqb t s
  | _ => false
  end.

(** The items [for (const x of v)] visits; [None] when [v] is not
    iterable (a TypeError).  A string iterates over its characters. *)
Definition iterate (v : jsval) : option (list json) :=
  match v with
  | Some (JArray l) => Some l
  | Some (JString s) =>
      Some (map (fun c => JString (String c EmptyString)) (list_ascii_of_string s))
  | _ => None
  end.

End Json.

(* ================================================================== *)
(** ** An executable [JSON.parse] *)

(** A recursive-descent parser for the JSON grammar, used to run the stream
    functions on concrete wire text.  It covers objects, arrays, strings with
    their escapes, the three literals and integers of at most fifteen digits
    (whose [ToString] is their decimal text).  Fractions, exponents, longer
    integers and [\u] escapes above 255 are outside this model and answer
    [None]; the theorems below never depend on it, they hold for every
    parser. *)
Module JsonParse.

Definition DQ : ascii := "034"%char.
Definition BS : ascii := "092"%char.

Definition isJsonSpace (c : ascii) : bool :=
  let n := nat_of_ascii c in
  ((n =? 32) || (n =? 9) || (n =? 10) || (n =? 13))%nat.

Fixpoint skip_ws (s : string) : string :=
  match s with
  | String c s' => if isJsonSpace c then skip_ws s' else s
  | EmptyString => EmptyString
  end.

Definition isDigit (c : ascii) : bool :=
  let n := nat_of_ascii c in ((48 <=? n) && (n <=? 57))%nat.

Definition hexval (c : ascii) : option nat :=
  let n := nat_of_ascii c in
  if ((48 <=? n) && (n <=? 57))%nat then Some (n - 48)
  else if ((97 <=? n) && (n <=? 102))%nat then Some (n - 87)
  else if ((65 <=? n) && (n <=? 70))%nat then Some (n - 55)
  else None.

(** The four hex digits of a [\u] escape, as a code unit below 256. *)
Definition unicode_escape (s : string) : option (ascii * string) :=
  match s with
  | String a (String b (String c (String d rest))) =>
      match hexval a, hexval b, hexval c, hexval d with
      | Some 0, Some 0, Some x, Some y => Some (ascii_of_nat (16 * x + y), rest)
      | _, _, _, _ => None
      end
  | _ => None
  end.

(** The characters of a string literal after its opening quote, up to and
    including the closing quote. *)
Fixpoint string_body (fuel : nat) (s : string) : option (string * string) :=
  match fuel with
  | O => None
  | S fuel' =>
      match s with
      | EmptyString => None
      | String c rest =>
          if Ascii.eqb c DQ then Some (EmptyString, rest)
          else if Ascii.eqb c BS then
            match rest with
            | String e rest' =>
                let continue (ch : ascii) (r : string) :=
                  match string_body fuel' r with
                  | Some (body, r') => Some (String ch body, r')
                  | None => None
                  end in
                if Ascii.eqb e DQ then continue DQ rest'
                else if Ascii.eqb e BS then continue BS rest'
                else if Ascii.eqb e "/" then continue "/"%char rest'
                else if Ascii.eqb e "b" then continue "008"%char rest'
                else if Ascii.eqb e "f" then continue "012"%char rest'
                else if Ascii.eqb e "n" then continue "010"%char rest'
                else if Ascii.eqb e "r" then continue "013"%char rest'
                else if Ascii.eqb e "t" then continue "009"%char rest'
                else if Ascii.eqb e "u" then
                  match unicode_escape rest' with
                  | Some (ch, r) => continue ch r
                  | None => None
                  end
                else None
            | EmptyString => None
            end
          else if (nat_of_ascii c <? 32)%nat then None
          else
            match string_body fuel' rest with
            | Some (body, r') => Some (String c body, r')
            | None => None
            end
      end
  end.

Fixpoint digits (s : string) : string * string :=
  match s with
  | String c s' =>
      if isDigit c then let (d, r) := digits s' in (String c d, r) else (EmptyString, s)
  | EmptyString => (EmptyString, EmptyString)
  end.

(** After the digits of an integer: a fraction or an exponent would follow. *)
Definition integer_ends (r : string) : bool :=
  match r with
  | String c _ => negb (Ascii.eqb c "." || Ascii.eqb c "e" || Ascii.eqb c "E")
  | EmptyString => true
  end.

Definition number (s : string) : option (json * string) :=
  let (neg, s1) :=
    match s with
    | String c s' => if Ascii.eqb c "-" then (true, s') else (false, s)
    | EmptyString => (false, s)
    end in
  let (d, r) := digits s1 in
  match d with
  | EmptyString => None
  | String c d' =>
      if negb (integer_ends r) then None
      else if (15 <? String.length d)%nat then None
      else if Ascii.eqb c "0" then
        match d' with
        | EmptyString => Some (JNumber "0", r)
        | String _ _ => None
        end
      else Some (JNumber (if neg then String "-" d else d), r)
  end.

Definition literal (word : string) (v : json) (s : string) : option (json * string) :=
  if String.prefix word s then Some (v, JS.slice_from (String.length word) s) else None.

(** Assignment of a property while an object literal is read: a repeated
    key keeps its place and takes the later value. *)
Fixpoint assign (k : string) (v : json) (props : list (string * json)) : list (string * json) :=
  match props with
  | [] => [(k, v)]
  | (k', v') :: rest =>
      if String.eqb k k' then (k', v) :: rest else (k', v') :: assign k v rest
  end.

Fixpoint value (fuel : nat) (s : string) {struct fuel} : option (json * string) :=
  match fuel with
  | O => None
  | S fuel' =>
      let elements :=
        fix elements (n : nat) (s : string) (acc : list json) {struct n} :=
          match n with
          | O => None
          | S n' =>
              match value fuel' s with
              | Some (v, r) =>
                  match skip_ws r with
                  | String c r' =>
                      if Ascii.eqb c "," then elements n' r' (v :: acc)
                      else if Ascii.eqb c "]" then Some (JArray (rev (v :: acc)), r')
                      else None
                  | EmptyString => None
                  end
              | None => None
              end
          end in
      let members :=
        fix members (n : nat) (s : string) (acc : list (string * json)) {struct n} :=
          match n with
          | O => None
          | S n' =>
              match skip_ws s with
              | String q s1 =>
                  if negb (Ascii.eqb q DQ) then None else
                  match string_body (S (String.length s1)) s1 with
                  | Some (k, s2) =>
                      match skip_ws s2 with
                      | String colon s3 =>
                          if negb (Ascii.eqb colon ":") then None else
                          match value fuel' s3 with
                          | Some (v, r) =>
                              match skip_ws r with
                              | String c r' =>
                                  if Ascii.eqb c "," then members n' r' (assign k v acc)
                                  else if Ascii.eqb c "}" then Some (JObject (assign k v acc), r')
                                  else None
                              | EmptyString => None
                              end
                          | None => None
                          end
                      | EmptyString => None
                      end
                  | None => None
                  end
              | EmptyString => None
              end
          end in
      match skip_ws s with
      | EmptyString => None
      | String c r =>
          if Ascii.eqb c "n" then literal "null" JNull (String c r)
          else if Ascii.eqb c "t" then literal "true" (JBool true) (String c r)
          else if Ascii.eqb c "f" then literal "false" (JBool false) (String c r)
          else if Ascii.eqb c DQ then
            match string_body (S (String.length r)) r with
            | Some (str, r') => Some (JString str, r')
            | None => None
            end
          else if Ascii.eqb c "[" then
            match skip_ws r with
            | String c' r' =>
                if Ascii.eqb c' "]" then Some (JArray [], r')
                else elements (S (String.length r)) r []
            | EmptyString => None
            end
          else if Ascii.eqb c "{" then
            match skip_ws r with
            | String c' r' =>
                if Ascii.eqb c' "}" then Some (JObject [], r')
                else members (S (String.length r)) r []
            | EmptyString => None
            end
          else number (String c r)
      end
  end.

End JsonParse.

(** [JSON.parse(text)]: [None] is a SyntaxError. *)
Definition json_parse (text : string) : option json :=
  match JsonParse.value (S (String.length text)) text with
  | Some (v, rest) =>
      match JsonParse.skip_ws rest with
      | EmptyString => Some v
      | String _ _ => None
      end
  | None => None
  end.

(** Wire text is written with apostrophes where the wire has double
    quotes. *)
Fixpoint wire (s : string) : string :=
  match s with
  | EmptyString => EmptyString
  | String c s' => String (if Ascii.eqb c "'" then JsonParse.DQ else c) (wire s')
  end.

(** The byte stream made of the given lines, each ended by a line feed. *)
Fixpoint unlines (ls : list string) : string :=
  match ls with
  | [] => EmptyString
  | l :: rest => (l ++ String JS.LF (unlines rest))%string
  end.

(* ================================================================== *)
(** ** Data model (chat.tsx, lines 24-35) *)

Inductive Role : Type := user | assistant.

(** [interface Message]; [thinking?: string] is [None] when absent. *)
Record Message : Type := mkMessage {
  role : Role;
  content : string;
  thinking : option string
}.

Module StoredChat.
(** [interface StoredChat] *)
Record t : Type := make {
  id : string;
  title : string;
  timestamp : string;
  messages : list Message
}.
End StoredChat.

Definition Role_eqb (a b : Role) : bool :=
  match a, b with
  | user, user => true
  | assistant, assistant => true
  | _, _ => false
  end.

(** The scroll container as [handleScroll] reads it, in pixels. *)
Record Container : Type := {
  scrollTop : Z;
  scrollHeight : Z;
  clientHeight : Z
}.

(* ================================================================== *)
(** ** State of the component and of the browser around it *)

(** What the transcript shows and what the running submission holds:
    [messages], [input], [isLoading], [openThinking], [isThinkingComplete]
    (all [useState]), [currentMessageRef] ([useRef]) and the length of
    [messages] as the closure of the running [handleSubmit] captured it. *)
Record Transcript : Type := {
  messages : list Message;
  input : string;
  isLoading : bool;
  openThinking : option nat;
  isThinkingComplete : bool;
  currentMessageRef : option Message;
  closureLength : nat
}.

(** The session list: [chats], [currentChatId], [chatToDelete],
    [showClearConfirm]. *)
Record Sessions : Type := {
  chats : list StoredChat.t;
  currentChatId : option string;
  chatToDelete : option string;
  showClearConfirm : bool
}.

(** [isAutoScrollEnabled], [isScrolling] and [scrollRef], which holds the
    handle of the animation frame request last made. *)
Record Scrolling : Type := {
  isAutoScrollEnabled : bool;
  isScrolling : bool;
  scrollRef : option positive
}.

(** The browser: the item ['deepclaude-chats'] of [localStorage] (what
    [JSON.stringify(chats)] wrote, as [JSON.parse] reads it back; [None]
    when the item is absent), the animation frame requests not yet run (all
    of them carry the callback of [scrollToBottom]), the next request handle
    and the number of [container.scrollTo] calls made so far. *)
Record Browser : Type := {
  localStorage : option (list StoredChat.t);
  framePending : list positive;
  frameNext : positive;
  scrollToCalls : nat
}.

Record World : Type := {
  transcript : Transcript;
  sessions : Sessions;
  scrolling : Scrolling;
  browser : Browser
}.

Definition onTranscript (f : Transcript -> Transcript) (w : World) : World :=
  {| transcript := f (transcript w); sessions := sessions w;
     scrolling := scrolling w; browser := browser w |}.

Definition onSessions (f : Sessions -> Sessions) (w : World) : World :=
  {| transcript := transcript w; sessions := f (sessions w);
     scrolling := scrolling w; browser := browser w |}.

Definition onScrolling (f : Scrolling -> Scrolling) (w : World) : World :=
  {| transcript := transcript w; sessions := sessions w;
     scrolling := f (scrolling w); browser := browser w |}.

Definition onBrowser (f : Browser -> Browser) (w : World) : World :=
  {| transcript := transcript w; sessions := sessions w;
     scrolling := scrolling w; browser := f (browser w) |}.

(** State setters.  [setMessages] and [setChats] take the updater function,
    as the source calls them. *)
Definition setMessages (f : list Message -> list Message) : World -> World :=
  onTranscript (fun t =>
    {| messages := f (messages t); input := input t; isLoading := isLoading t;
       openThinking := openThinking t; isThinkingComplete := isThinkingComplete t;
       currentMessageRef := currentMessageRef t; closureLength := closureLength t |}).

Definition setInput (v : string) : World -> World :=
  onTranscript (fun t =>
    {| messages := messages t; input := v; isLoading := isLoading t;
       openThinking := openThinking t; isThinkingComplete := isThinkingComplete t;
       currentMessageRef := currentMessageRef t; closureLength := closureLength t |}).

Definition setIsLoading (v : bool) : World -> World :=
  onTranscript (fun t =>
    {| messages := messages t; input := input t; isLoading := v;
       openThinking := openThinking t; isThinkingComplete := isThinkingComplete t;
       currentMessageRef := currentMessageRef t; closureLength := closureLength t |}).

Definition setOpenThinking (v : option nat) : World -> World :=
  onTranscript (fun t =>
    {| messages := messages t; input := input t; isLoading := isLoading t;
       openThinking := v; isThinkingComplete := isThinkingComplete t;
       currentMessageRef := currentMessageRef t; closureLength := closureLength t |}).

Definition setIsThinkingComplete (v : bool) : World -> World :=
  onTranscript (fun t =>
    {| messages := messages t; input := input t; isLoading := isLoading t;
       openThinking := openThinking t; isThinkingComplete := v;
       currentMessageRef := currentMessageRef t; closureLength := closureLength t |}).

Definition setCurrentMessageRef (v : option Message) : World -> World :=
  onTranscript (fun t =>
    {| messages := messages t; input := input t; isLoading := isLoading t;
       openThinking := openThinking t; isThinkingComplete := isThinkingComplete t;
       currentMessageRef := v; closureLength := closureLength t |}).

Definition setClosureLength (v : nat) : World -> World :=
  onTranscript (fun t =>
    {| messages := messages t; input := input t; isLoading := isLoading t;
       openThinking := openThinking t; isThinkingComplete := isThinkingComplete t;
       currentMessageRef := currentMessageRef t; closureLength := v |}).

Definition setChats (f : list StoredChat.t -> list StoredChat.t) : World -> World :=
  onSessions (fun s =>
    {| chats := f (chats s); currentChatId := currentChatId s;
       chatToDelete := chatToDelete s; showClearConfirm := showClearConfirm s |}).

Definition setCurrentChatId (v : option string) : World -> World :=
  onSessions (fun s =>
    {| chats := chats s; currentChatId := v;
       chatToDelete := chatToDelete s; showClearConfirm := showClearConfirm s |}).

Definition setChatToDelete (v : option string) : World -> World :=
  onSessions (fun s =>
    {| chats := chats s; currentChatId := currentChatId s;
       chatToDelete := v; showClearConfirm := showClearConfirm s |}).

Definition setShowClearConfirm (v : bool) : World -> World :=
  onSessions (fun s =>
    {| chats := chats s; currentChatId := currentChatId s;
       chatToDelete := chatToDelete s; showClearConfirm := v |}).

Definition setIsAutoScrollEnabled (v : bool) : World -> World :=
  onScrolling (fun s =>
    {| isAutoScrollEnabled := v; isScrolling := isScrolling s; scrollRef := scrollRef s |}).

Definition setScrollRef (v : option positive) : World -> World :=
  onScrolling (fun s =>
    {| isAutoScrollEnabled := isAutoScrollEnabled s; isScrolling := isScrolling s;
       scrollRef := v |}).

(** [localStorage.setItem('deepclaude-chats', JSON.stringify(v))] *)
Definition localStorage_setItem (v : list StoredChat.t) : World -> World :=
  onBrowser (fun b =>
    {| localStorage := Some v; framePending := framePending b;
       frameNext := frameNext b; scrollToCalls := scrollToCalls b |}).

(** [localStorage.removeItem('deepclaude-chats')] *)
Definition localStorage_removeItem : World -> World :=
  onBrowser (fun b =>
    {| localStorage := None; framePending := framePending b;
       frameNext := frameNext b; scrollToCalls := scrollToCalls b |}).

(** [cancelAnimationFrame(h)]: the request [h], if still pending, is
    dropped. *)
Definition cancelAnimationFrame (h : positive) : World -> World :=
  onBrowser (fun b =>
    {| localStorage := localStorage b;
       framePending := filter (fun k => negb (Pos.eqb k h)) (framePending b);
       frameNext := frameNext b; scrollToCalls := scrollToCalls b |}).

(** [requestAnimationFrame(callback)]: a fresh handle, queued behind the
    requests already pending. *)
Definition requestAnimationFrame (w : World) : positive * World :=
  let h := frameNext (browser w) in
  (h, onBrowser (fun b =>
        {| localStorage := localStorage b;
           framePending := framePending b ++ [h];
           frameNext := Pos.succ (frameNext b); scrollToCalls := scrollToCalls b |}) w).

(** The state of a freshly mounted component ([useState] and [useRef]
    initial values) in a freshly loaded page whose storage holds [stored]. *)
Definition initialWorld (stored : option (list StoredChat.t)) : World :=
  {| transcript :=
       {| messages := []; input := ""; isLoading := false; openThinking := None;
          isThinkingComplete := false; currentMessageRef := None; closureLength := 0 |};
     sessions :=
       {| chats := []; currentChatId := None; chatToDelete := None;
          showClearConfirm := false |};
     scrolling :=
       {| isAutoScrollEnabled := true; isScrolling := false; scrollRef := None |};
     browser :=
       {| localStorage := stored; framePending := []; frameNext := 1%positive;
          scrollToCalls := 0 |} |}.

(* ================================================================== *)
(** ** Session store (chat.tsx, lines 92-197) *)

(** Truthiness of [currentChatId : string | null]. *)
Definition truthy_id (i : option string) : bool :=
  match i with
  | Some s => JS.truthy_string s
  | None => false
  end.

(** [currentChatId === chatId] *)
Definition id_is (i : option string) (chatId : string) : bool :=
  match i with
  | Some s => String.eqb s chatId
  | None => false
  end.

(** [generateChatTitle], line 100. *)
Definition generateChatTitle (firstMessage : string) : string :=
  JS.slice_to 20 firstMessage.

(** The effect of lines 93-97: the list is written when it is not empty. *)
Definition persistChats (w : World) : World :=
  if (0 <? length (chats (sessions w)))%nat
  then localStorage_setItem (chats (sessions w)) w
  else w.

(** [deleteChat], lines 105-116 (the analytics call aside). *)
Definition deleteChat (chatId : string) (w : World) : World :=
  let w1 :=
    setChats (filter (fun chat => negb (String.eqb (StoredChat.id chat) chatId))) w in
  let w2 :=
    if id_is (currentChatId (sessions w)) chatId
    then setMessages (fun _ => []) (setCurrentChatId None w1)
    else w1 in
  setChatToDelete None w2.

(** [clearAllChats], lines 119-129. *)
Definition clearAllChats (w : World) : World :=
  setShowClearConfirm false
    (localStorage_removeItem
       (setMessages (fun _ => [])
          (setCurrentChatId None
             (setChats (fun _ => []) w)))).

(** [createNewChat], lines 142-160; [chatId] is the UUID drawn and
    [now] the time stamp taken. *)
Definition createNewChat (chatId now : string) (w : World) : World :=
  let newChat :=
    {| StoredChat.id := chatId; StoredChat.title := "New Chat";
       StoredChat.timestamp := now; StoredChat.messages := [] |} in
  setMessages (fun _ => [])
    (setCurrentChatId (Some chatId)
       (setChats (fun prev => prev ++ [newChat]) w)).

(** The mount effect, lines 163-171: the stored list, when there is one,
    becomes [chats], and a new chat is always created. *)
Definition mountEffect (chatId now : string) (w : World) : World :=
  let w1 :=
    match localStorage (browser w) with
    | Some parsedChats => setChats (fun _ => parsedChats) w
    | None => w
    end in
  createNewChat chatId now w1.

(** A page load: a fresh component over the storage the previous page left,
    and its mount effect. *)
Definition restart (chatId now : string) (w : World) : World :=
  mountEffect chatId now (initialWorld (localStorage (browser w))).

(** [updateCurrentChat], lines 174-192. *)
Definition updateCurrentChat (w : World) : World :=
  let msgs := messages (transcript w) in
  if truthy_id (currentChatId (sessions w)) && (0 <? length msgs)%nat then
    setChats (map (fun chat =>
      if id_is (currentChatId (sessions w)) (StoredChat.id chat) then
        {| StoredChat.id := StoredChat.id chat;
           StoredChat.title :=
             match length (StoredChat.messages chat), msgs with
             | O, m0 :: _ => generateChatTitle (content m0)
             | _, _ => StoredChat.title chat
             end;
           StoredChat.timestamp := StoredChat.timestamp chat;
           StoredChat.messages := msgs |}
      else chat)) w
  else w.

(** The click on a chat of the sidebar, lines 688-690. *)
Definition selectChat (chat : StoredChat.t) (w : World) : World :=
  setMessages (fun _ => StoredChat.messages chat)
    (setCurrentChatId (Some (StoredChat.id chat)) w).

(* ================================================================== *)
(** ** Scroll coordinator (chat.tsx, lines 283-316) *)

(** [handleScroll]; [container] is [None] when the element is missing. *)
Definition handleScroll (container : option Container) (w : World) : World :=
  match container with
  | None => w
  | Some c =>
      if isScrolling (scrolling w) then w
      else
        let isAtBottom := (scrollHeight c - (scrollTop c + clientHeight c) <? 50)%Z in
        setIsAutoScrollEnabled isAtBottom w
  end.

(** [scrollToBottom]: the request still referenced is cancelled and a new
    one is made. *)
Definition scrollToBottom (container : option Container) (w : World) : World :=
  match container with
  | None => w
  | Some _ =>
      let w1 :=
        match scrollRef (scrolling w) with
        | Some h => cancelAnimationFrame h w
        | None => w
        end in
      let (h, w2) := requestAnimationFrame w1 in
      setScrollRef (Some h) w2
  end.

(** The effect of lines 312-316, run after [messages] grew. *)
Definition autoScroll (container : option Container) (w : World) : World :=
  if isAutoScrollEnabled (scrolling w) && (0 <? length (messages (transcript w)))%nat
  then scrollToBottom container w
  else w.

(** The callback of line 301 running once: one [scrollTo], and the
    reference is cleared. *)
Definition scrollCallback (w : World) : World :=
  setScrollRef None
    (onBrowser (fun b =>
       {| localStorage := localStorage b; framePending := framePending b;
          frameNext := frameNext b; scrollToCalls := S (scrollToCalls b) |}) w).

(** The next paint: every pending request runs its callback, in order, and
    the queue is empty afterwards. *)
Definition animationFrame (w : World) : World :=
  let pending := framePending (browser w) in
  let w1 :=
    onBrowser (fun b =>
      {| localStorage := localStorage b; framePending := [];
         frameNext := frameNext b; scrollToCalls := scrollToCalls b |}) w in
  fold_left (fun acc _ => scrollCallback acc) pending w1.

(* ================================================================== *)
(** ** Submission and streaming (chat.tsx, lines 424-594) *)

(** The updater of lines 541-550, called
    [appendOrReplaceLastAssistantMessage] in the design. *)
Definition appendOrReplaceLastAssistantMessage
    (newCurrentMessage : Message) (prev : list Message) : list Message :=
  match (0 <? length prev)%nat, nth_error prev (length prev - 1) with
  | true, Some lastMessage =>
      if Role_eqb (role lastMessage) assistant
      then firstn (length prev - 1) prev ++ [newCurrentMessage]
      else prev ++ [newCurrentMessage]
  | _, _ => prev ++ [newCurrentMessage]
  end.

(** [v || ""] for [v : string | undefined]: the empty string takes the
    place of a value that is [undefined] or empty. *)
Definition orEmpty (v : option string) : string :=
  match v with
  | Some t => if JS.truthy_string t then t else ""
  | None => ""
  end.

(** The message the stream starts from, lines 506-517. *)
Definition placeholder : Message :=
  {| role := assistant; content := ""; thinking := Some "" |}.

(** [handleSubmit] up to its first [await], lines 425-461: [token] is
    [apiTokens.anthropicApiToken], [chatId] and [now] the UUID and the time
    stamp a new chat would get. *)
Definition handleSubmit (token chatId now : string) (w : World) : World :=
  let text := input (transcript w) in
  if negb (JS.truthy_string (JS.trim text)) || isLoading (transcript w) then w
  else if negb (JS.truthy_string token) then w
  else
    let w1 :=
      if negb (truthy_id (currentChatId (sessions w))) then
        let newChat :=
          {| StoredChat.id := chatId; StoredChat.title := generateChatTitle text;
             StoredChat.timestamp := now; StoredChat.messages := [] |} in
        setCurrentChatId (Some chatId) (setChats (fun prev => prev ++ [newChat]) w)
      else w in
    let userMessage := {| role := user; content := text; thinking := None |} in
    setClosureLength (length (messages (transcript w)))
      (setIsThinkingComplete false
         (setIsLoading true
            (setInput ""
               (setMessages (fun prev => prev ++ [userMessage]) w1)))).

(** Lines 506-517, once the response has arrived: the running message is
    initialised and an empty assistant message is shown. *)
Definition beginResponse (w : World) : World :=
  setMessages (fun prev => prev ++ [placeholder])
    (setCurrentMessageRef (Some placeholder) w).

(** The [finally] block, lines 580-586. *)
Definition endSubmit (w : World) : World :=
  let w1 := setIsLoading false w in
  match scrollRef (scrolling w1) with
  | Some h => cancelAnimationFrame h w1
  | None => w1
  end.

Section Stream.

(** [JSON.parse]: [None] when it throws. *)
Variable JSON_parse : string -> option json.

(** One round of the loop of lines 526-551 on the block [block], with the
    running message [cur].  The updater given to [setMessages] copies the
    running message when React runs it; it is run here at once.  Run later,
    after more blocks, it copies a later running message, and the last
    updater of a batch copies the last one: the list React commits is the
    same. *)
Definition applyBlock (cur : Message) (block : json) (w : World) : option World :=
  match Json.get "content_type" block, Json.get "thinking" block, Json.get "text" block with
  | Some content_type, Some block_thinking, Some block_text =>
      let w1 :=
        if Json.strictEqString content_type "thinking" && Json.truthy block_thinking then
          let cur' :=
            {| role := role cur; content := content cur;
               thinking := Some (Json.concat (orEmpty (thinking cur)) block_thinking) |} in
          setOpenThinking (Some (closureLength (transcript w)))
            (setCurrentMessageRef (Some cur') w)
        else if Json.truthy block_text then
          let cur' :=
            {| role := role cur; content := Json.concat (content cur) block_text;
               thinking := thinking cur |} in
          setCurrentMessageRef (Some cur') w
        else w in
      match currentMessageRef (transcript w1) with
      | Some newCurrentMessage =>
          Some (setMessages (appendOrReplaceLastAssistantMessage newCurrentMessage) w1)
      | None => None
      end
  | _, _, _ => None
  end.

(** The loop [for (const content of data.content)]: it stops at a missing
    running message ([return]) and at a block that throws (the [catch]
    keeps what the earlier blocks did). *)
Fixpoint forEachBlock (blocks : list json) (w : World) : World :=
  match blocks with
  | [] => w
  | block :: rest =>
      match currentMessageRef (transcript w) with
      | None => w
      | Some cur =>
          match applyBlock cur block w with
          | Some w' => forEachBlock rest w'
          | None => w
          end
      end
  end.

(** [processLine], lines 519-559. *)
Definition processLine (line : string) (w : World) : World :=
  if negb (JS.truthy_string (JS.trim line)) || negb (JS.startsWith "data: " line) then w
  else
    match JSON_parse (JS.slice_from 6 line) with
    | None => w
    | Some data =>
        match Json.get "type" data with
        | None => w
        | Some type =>
            if Json.strictEqString type "content" then
              match Json.get "content" data with
              | Some blocks =>
                  match Json.iterate blocks with
                  | Some items => forEachBlock items w
                  | None => w
                  end
              | None => w
              end
            else if Json.strictEqString type "message_stop" then
              setIsThinkingComplete true w
            else w
        end
    end.

(** The body of the read loop for one read, lines 565-570. *)
Definition processChunk (chunk : string) (w : World) : World :=
  fold_left (fun acc line => processLine line acc) (JS.split_LF chunk) w.

(** The read loop, lines 561-571, over the reads [chunks] of a stream that
    then reports [done]. *)
Definition readLoop (chunks : list string) (w : World) : World :=
  fold_left (fun acc chunk => processChunk chunk acc) chunks w.

(** *** The component as a transition system *)

(** What can happen to a mounted component: the handlers, the stages of a
    submission, the effects the scheduler runs after a render, and the
    browser's scroll events and paints. *)
Inductive Event : Type :=
| CreateNewChat (chatId now : string)
| SelectChat (chat : StoredChat.t)
| AskDelete (chatId : string)
| DeleteChat (chatId : string)
| ClearAllChats
| TypeInput (text : string)
| Submit (token chatId now : string)
| BeginResponse
| Read (chunk : string)
| EndSubmit
| PersistEffect
| UpdateChatEffect
| AutoScrollEffect (container : option Container)
| ScrollEvent (container : option Container)
| AnimationFrame.

Definition step (w : World) (e : Event) : World :=
  match e with
  | CreateNewChat chatId now => createNewChat chatId now w
  | SelectChat chat => selectChat chat w
  | AskDelete chatId => setChatToDelete (Some chatId) w
  | DeleteChat chatId => deleteChat chatId w
  | ClearAllChats => clearAllChats w
  | TypeInput text => setInput text w
  | Submit token chatId now => handleSubmit token chatId now w
  | BeginResponse => beginResponse w
  | Read chunk => processChunk chunk w
  | EndSubmit => endSubmit w
  | PersistEffect => persistChats w
  | UpdateChatEffect => updateCurrentChat w
  | AutoScrollEffect container => autoScroll container w
  | ScrollEvent container => handleScroll container w
  | AnimationFrame => animationFrame w
  end.

Definition run (es : list Event) (w : World) : World := fold_left step es w.

(** The effects; any number of them may run, in any order, between two
    other events. *)
Definition isEffect (e : Event) : bool :=
  match e with
  | PersistEffect | UpdateChatEffect | AutoScrollEffect _ => true
  | _ => false
  end.

End Stream.

(* ================================================================== *)
(** ** The decoder and the accumulator of the design *)

(** The design splits [processLine] in two: a decoder from wire lines to
    stream events and an accumulator from events to the running message.
    Both are written here after the design document; [processLine_decodes]
    below shows that [processLine] is their composition. *)

Inductive Channel : Type := Thinking | Text.

Inductive StreamEvent : Type :=
| ContentDelta (channel : Channel) (fragment : string)
| Stop
| Malformed.

(** The accumulator rules of the design, section 4.2. *)
Definition accumulate (m : Message) (e : StreamEvent) : Message :=
  match e with
  | ContentDelta Thinking f =>
      {| role := role m; content := content m;
         thinking := Some (match thinking m with Some t => t | None => "" end ++ f)%string |}
  | ContentDelta Text f =>
      {| role := role m; content := (content m ++ f)%string; thinking := thinking m |}
  | Stop => m
  | Malformed => m
  end.

(** The event a content block stands for: a thinking delta when it is
    marked so and carries thinking text, else a text delta when it carries
    text, else nothing.  [None] is a block whose fields cannot be read. *)
Definition decodeBlock (block : json) : option (list StreamEvent) :=
  match Json.get "content_type" block, Json.get "thinking" block, Json.get "text" block with
  | Some content_type, Some block_thinking, Some block_text =>
      if Json.strictEqString content_type "thinking" && Json.truthy block_thinking
      then Some [ContentDelta Thinking (Json.concat "" block_thinking)]
      else if Json.truthy block_text
      then Some [ContentDelta Text (Json.concat "" block_text)]
      else Some []
  | _, _, _ => None
  end.

(** One event per block, in order; an unreadable block ends the record as
    [Malformed]. *)
Fixpoint decodeBlocks (blocks : list json) : list StreamEvent :=
  match blocks with
  | [] => []
  | block :: rest =>
      match decodeBlock block with
      | Some evs => evs ++ decodeBlocks rest
      | None => [Malformed]
      end
  end.

Section Decoder.

Variable JSON_parse : string -> option json.

(** The events of one line: only lines that begin with ["data: "] carry a
    payload, one that fails to parse is [Malformed], a record of type
    [message_stop] is [Stop]. *)
Definition decodeLine (line : string) : list StreamEvent :=
  if negb (JS.startsWith "data: " line) then []
  else
    match JSON_parse (JS.slice_from 6 line) with
    | None => [Malformed]
    | Some data =>
        match Json.get "type" data with
        | None => [Malformed]
        | Some type =>
            if Json.strictEqString type "content" then
              match Json.get "content" data with
              | Some blocks =>
                  match Json.iterate blocks with
                  | Some items => decodeBlocks items
                  | None => [Malformed]
                  end
              | None => [Malformed]
              end
            else if Json.strictEqString type "message_stop" then [Stop]
            else []
        end
    end.

(** The events the read loop sees over the reads [chunks]: each read is
    cut at its line feeds and every piece is decoded as a line. *)
Definition decodeChunks (chunks : list string) : list StreamEvent :=
  flat_map (fun chunk => flat_map decodeLine (JS.split_LF chunk)) chunks.

End Decoder.




(** Every read but the last one ends at a line end (or is empty). *)
Fixpoint lineAligned (chunks : list string) : Prop :=
  match chunks with
  | [] => True
  | [_] => True
  | chunk :: rest =>
      (chunk = "" \/ exists body, chunk = (body ++ String JS.LF "")%string)
      /\ lineAligned rest
  end.

(** *** Sample streams *)

Definition sampleLines : list string :=
  [ wire "data: {'type':'content','content':[{'content_type':'thinking','thinking':'Let\u0027s '}]}";
    wire "data: {'type':'content','content':[{'content_type':'thinking','thinking':'see.'}]}";
    wire "data: {'type':'content','content':[{'text':'42'}]}";
    wire "data: {'type':'message_stop'}" ].

(** A freshly loaded page in which the user typed a question, submitted it
    and the response has begun. *)
Definition sampleWorld : World :=
  beginResponse
    (handleSubmit "token" "chat-2" "t2"
       (setInput "How many r's in strawberry?"
          (restart "chat-1" "t1" (initialWorld None)))).


(** *** Vocabulary of the properties *)

(** The chat [createNewChat] makes. *)
Definition freshChat (chatId now : string) : StoredChat.t :=
  {| StoredChat.id := chatId; StoredChat.title := "New Chat";
     StoredChat.timestamp := now; StoredChat.messages := [] |}.

(** Events of a running stream that no user action interrupts: reads,
    effects, scroll events and paints. *)
Definition isStreamEvent (e : Event) : bool :=
  match e with
  | Read _ | PersistEffect | UpdateChatEffect | AutoScrollEffect _
  | ScrollEvent _ | AnimationFrame => true
  | _ => false
  end.

(** Events of one turn after its submission: the response begins, is read,
    ends; effects, scroll events and paints happen; the user may type. *)
Definition isTurnEvent (e : Event) : bool :=
  match e with
  | BeginResponse | EndSubmit | TypeInput _ => true
  | _ => isStreamEvent e
  end.

(** [w'] differs from [w] at most in what a read can change: [messages],
    [openThinking], [isThinkingComplete] and the running message. *)
Definition sameOutsideStream (w w' : World) : Prop :=
  sessions w' = sessions w /\
  scrolling w' = scrolling w /\
  browser w' = browser w /\
  input (transcript w') = input (transcript w) /\
  isLoading (transcript w') = isLoading (transcript w) /\
  closureLength (transcript w') = closureLength (transcript w).

(** The message [handleSubmit] makes of the text typed. *)
Definition userMessageOf (text : string) : Message :=
  {| role := user; content := text; thinking := None |}.

(** The first turn of the session [cid], created at [now] and stored
    between the sessions [before] and [after], once the user submitted
    [text]: the session is current, the transcript begins with the user's
    message, and the stored session either is still untouched or holds a
    transcript under the derived title ([derived] says that it must be the
    latter). *)
Definition firstTurn (before after : list StoredChat.t) (cid now text : string)
    (derived : bool) (w : World) : Prop :=
  currentChatId (sessions w) = Some cid /\
  (exists rest,
     messages (transcript w) = userMessageOf text :: rest) /\
  exists chat,
    chats (sessions w) = before ++ [chat] ++ after /\
    StoredChat.id chat = cid /\
    StoredChat.timestamp chat = now /\
    ((derived = false /\ StoredChat.title chat = "New Chat" /\ StoredChat.messages chat = []) \/
     (StoredChat.title chat = generateChatTitle text /\ StoredChat.messages chat <> [])).


(** The whole stream as one text. *)
Definition joinChunks (chunks : list string) : string :=
  fold_right String.append "" chunks.


(** At most one animation frame request is pending, and [scrollRef] holds
    its handle. *)
Definition singleSlot (w : World) : Prop :=
  framePending (browser w) = [] \/
  exists h, framePending (browser w) = [h] /\ scrollRef (scrolling w) = Some h.




(** The events that leave a pending scroll request in the queue: all but
    the paint, which runs it, and the end of the submission, which cancels
    it. *)
Definition keepsRequest (e : Event) : bool :=
  match e with
  | AnimationFrame | EndSubmit => false
  | _ => true
  end.

(** A burst of content growth: each read is followed by the auto-scroll
    effect of the render it causes, and no paint happens in between. *)
Definition growthBurst (container : option Container) (chunks : list string) : list Event :=
  flat_map (fun chunk => [Read chunk; AutoScrollEffect container]) chunks.

(** A store with two sessions, the second one current and showing a
    question. *)
Definition twoChats : World :=
  setMessages (fun _ => [{| role := user; content := "Hi"; thinking := None |}])
    (createNewChat "chat-b" "t2" (createNewChat "chat-a" "t1" (initialWorld None))).

(* ================================================================== *)
(** ** The rest of the component *)

(** *** Numbers as text *)

Module Number.

(** [String(n)] for an integer [n] below 2^53 in size, the integers a
    JavaScript number holds exactly: its decimal digits, with a minus sign
    when negative.  (From 10^21 on JavaScript writes an exponent; the
    properties below stay under 2^53.) *)
Definition toString (n : Z) : string :=
  DecimalString.NilZero.string_of_int (Z.to_int n).

(** [n.toString(16)] for a natural number: lower-case hexadecimal. *)
Definition toString16 (n : nat) : string :=
  HexadecimalString.NilZero.string_of_uint (Nat.to_hex_uint n).

End Number.

(** [formatElapsedTime], lines 65-73, for a whole number of seconds below
    2^53 in size.  There the division of JavaScript numbers, rounded and
    then floored, is the floored quotient of the integers, and [%] is the
    remainder with the sign of the dividend. *)
Definition formatElapsedTime (seconds : Z) : string :=
  let minutes := (seconds / 60)%Z in
  let remainingSeconds := Z.rem seconds 60 in
  if (minutes =? 0)%Z then (Number.toString remainingSeconds ++ " seconds")%string
  else (Number.toString minutes ++ " minute" ++ (if (1 <? minutes)%Z then "s" else "")
        ++ " " ++ Number.toString remainingSeconds ++ " seconds")%string.

(** *** Identifiers *)

Definition uuidTemplate : string := "xxxxxxxx-xxxx-4xxx-yxxx-xxxxxxxxxxxx".

(** [template.replace(/[xy]/g, callback)] with the callback of lines
    134-138: [random k] is the value of [Math.random() * 16 | 0] at the
    [k]-th call, a number from 0 to 15. *)
Fixpoint replaceXY (random : nat -> nat) (k : nat) (template : string) : string :=
  match template with
  | EmptyString => EmptyString
  | String c rest =>
      if Ascii.eqb c "x" || Ascii.eqb c "y" then
        let r := random k in
        let v := if Ascii.eqb c "x" then r else Nat.lor (Nat.land r 3) 8 in
        (Number.toString16 v ++ replaceXY random (S k) rest)%string
      else String c (replaceXY random k rest)
  end.

(** [generateUUID], lines 132-139. *)
Definition generateUUID (random : nat -> nat) : string :=
  replaceXY random 0 uuidTemplate.

(** The identifier of a new chat, lines 143-145: [randomUUID] is what
    [crypto.randomUUID()] returns where the platform has it. *)
Definition drawChatId (randomUUID : option string) (random : nat -> nat) : string :=
  match randomUUID with
  | Some uuid => uuid
  | None => generateUUID random
  end.

Definition isHexDigit (c : ascii) : bool :=
  let n := nat_of_ascii c in
  (((48 <=? n) && (n <=? 57)) || ((97 <=? n) && (n <=? 102)))%nat.

(** The four characters the variant position of a version 4 UUID takes. *)
Definition isVariantDigit (c : ascii) : bool :=
  Ascii.eqb c "8" || Ascii.eqb c "9" || Ascii.eqb c "a" || Ascii.eqb c "b".

(** [out] follows [template]: a hexadecimal digit where the template has
    [x], a variant digit where it has [y], the template's character
    elsewhere, and the same length. *)
Fixpoint fitsTemplate (template out : string) : bool :=
  match template, out with
  | EmptyString, EmptyString => true
  | String t ts, String c cs =>
      (if Ascii.eqb t "x" then isHexDigit c
       else if Ascii.eqb t "y" then isVariantDigit c
       else Ascii.eqb t c) && fitsTemplate ts cs
  | _, _ => false
  end.

(** *** The request *)

(** The [messages] field of the request body, lines 470-473, built when the
    submission is accepted: the transcript and the text typed, as pairs of
    content and role. *)
Definition requestMessages (w : World) : list (string * Role) :=
  map (fun msg => (content msg, role msg))
    (messages (transcript w) ++
     [{| role := user; content := input (transcript w); thinking := None |}]).

(** *** Rendering *)



(** [\w] of a regular expression. *)
Definition isWordChar (c : ascii) : bool :=
  let n := nat_of_ascii c in
  (((48 <=? n) && (n <=? 57)) || ((65 <=? n) && (n <=? 90)) ||
   ((97 <=? n) && (n <=? 122)) || (n =? 95))%nat.

(** The longest run of word characters [s] begins with. *)
Fixpoint takeWord (s : string) : string :=
  match s with
  | String c rest => if isWordChar c then String c (takeWord rest) else EmptyString
  | EmptyString => EmptyString
  end.

(** [/language-(\w+)/.exec(s)]: the group of the leftmost match, [None]
    when there is no match. *)
Fixpoint execLanguage (s : string) : option string :=
  match s with
  | EmptyString => None
  | String _ rest =>
      if JS.startsWith "language-" s &&
         JS.truthy_string (takeWord (JS.slice_from 9 s))
      then Some (takeWord (JS.slice_from 9 s))
      else execLanguage rest
  end.

(** [s.replace(/\n$/, "")]: a line feed at the very end is dropped. *)
Fixpoint dropFinalLF (s : string) : string :=
  match s with
  | EmptyString => EmptyString
  | String c rest =>
      match rest with
      | EmptyString => if Ascii.eqb c JS.LF then EmptyString else s
      | String _ _ => String c (dropFinalLF rest)
      end
  end.

(** [s.includes("\n")] *)
Fixpoint includesLF (s : string) : bool :=
  match s with
  | EmptyString => false
  | String c rest => Ascii.eqb c JS.LF || includesLF rest
  end.

(** What [CodeRenderer] (lines 218-262) renders: a highlighted block, with
    a copy button or without, or the inline [code] element. *)
Inductive CodeView : Type :=
| CodeBlock (language content : string) (copyButton : bool)
| InlineCode (className : option string) (children : string).

(** [CodeRenderer]; [children] is the text of the code. *)
Definition codeRenderer (isLoading inline : bool) (className : option string)
    (children : string) : CodeView :=
  let found := execLanguage (match className with
                             | Some c => if JS.truthy_string c then c else ""
                             | None => ""
                             end) in
  let language := match found with Some l => l | None => "text" end in
  let content := dropFinalLF children in
  let isCodeBlock :=
    match found with
    | Some _ => true
    | None => includesLF content
    end in
  if negb inline && isCodeBlock
  then CodeBlock language content (negb isLoading)
  else InlineCode className children.

(** *** The editor (markdown-editor.tsx) *)

Module Editor.

(** [s.slice(b, e)], with negative positions counted from the end. *)
Definition slice (s : string) (b e : Z) : string :=
  let len := Z.of_nat (String.length s) in
  let from := if (b <? 0)%Z then Z.max (len + b) 0 else Z.min b len in
  let to := if (e <? 0)%Z then Z.max (len + e) 0 else Z.min e len in
  String.substring (Z.to_nat from) (Z.to_nat (to - from)) s.

(** [s.endsWith(suffix)] *)
Definition endsWith (suffix s : string) : bool :=
  (String.length suffix <=? String.length s)%nat &&
  String.eqb (JS.slice_from (String.length s - String.length suffix) s) suffix.

(** What [handleKeyDown] does with a key: it calls [onSubmit], or calls
    [onChange] with a new text and asks for the cursor at a position, or
    leaves the key to the text area. *)
Inductive KeyAction : Type :=
| CallSubmit
| CallChange (value : string) (cursor : nat)
| LeaveToTextarea.

Definition fence : string := ("```" ++ String JS.LF (String JS.LF "```"))%string.

(** [handleKeyDown]: [key] and [shiftKey] come from the event, [value],
    [selectionStart] and [selectionEnd] from the text area. *)
Definition handleKeyDown (key : string) (shiftKey : bool)
    (value : string) (selectionStart selectionEnd : nat) : KeyAction :=
  if String.eqb key "Enter" && shiftKey then CallSubmit
  else if String.eqb key "`" then
    let beforeCursor := slice value 0 (Z.of_nat selectionStart) in
    let afterCursor := JS.slice_from selectionEnd value in
    if endsWith "``" beforeCursor then
      CallChange (slice value 0 (Z.of_nat selectionStart - 2) ++ fence ++ afterCursor)%string
                 (selectionStart + 2)
    else if negb (endsWith "`" beforeCursor) then
      CallChange (slice value 0 (Z.of_nat selectionStart) ++ "``" ++ afterCursor)%string
                 (selectionStart + 1)
    else LeaveToTextarea
  else LeaveToTextarea.

End Editor.

(** *** Vocabulary of the further properties *)



(** [handleSubmit] goes ahead: there is text, no submission is running and
    a token is set. *)
Definition accepted (token : string) (w : World) : bool :=
  JS.truthy_string (JS.trim (input (transcript w))) &&
  negb (isLoading (transcript w)) &&
  JS.truthy_string token.

Definition sessionIds (w : World) : list string :=
  map StoredChat.id (chats (sessions w)).

(** The identifier an event gives to a new session, if it makes one, is
    not in use. *)
Definition drawsFreshId (w : World) (e : Event) : Prop :=
  match e with
  | CreateNewChat chatId _ => ~ In chatId (sessionIds w)
  | Submit token chatId _ =>
      accepted token w = true ->
      truthy_id (currentChatId (sessions w)) = false ->
      ~ In chatId (sessionIds w)
  | _ => True
  end.

(** Events that remove sessions. *)
Definition isRemoval (e : Event) : bool :=
  match e with
  | DeleteChat _ | ClearAllChats => true
  | _ => false
  end.

(** A page load followed by the effects of its first renders. *)
Definition pageLoad (w : World) (fresh : string * string) : World :=
  persistChats (updateCurrentChat (restart (fst fresh) (snd fresh) w)).


(** What [updateCurrentChat] makes of the session [chat] when it is the
    current one and the transcript is [msgs]. *)
Definition updatedChat (msgs : list Message) (chat : StoredChat.t) : StoredChat.t :=
  {| StoredChat.id := StoredChat.id chat;
     StoredChat.title :=
       match StoredChat.messages chat, msgs with
       | [], m0 :: _ => generateChatTitle (content m0)
       | _, _ => StoredChat.title chat
       end;
     StoredChat.timestamp := StoredChat.timestamp chat;
     StoredChat.messages := msgs |}.

(* ================================================================== *)
(** * Properties *)

(** ** Strings and lines *)

Lemma split_LF_app_LF (a b : string) :
  JS.split_LF (a ++ String JS.LF b)%string = JS.split_LF a ++ JS.split_LF b.
Proof.
  induction a as [|c a IH]; simpl.
  - reflexivity.
  - rewrite IH. destruct (Ascii.eqb c JS.LF); [reflexivity|].
    destruct (JS.split_LF a) as [|l ls] eqn:E; [|reflexivity].
    exfalso. destruct a as [|c' a']; simpl in E; [discriminate|].
    destruct (Ascii.eqb c' JS.LF); [discriminate|].
    destruct (JS.split_LF a'); discriminate.
Qed.

Lemma split_LF_nonempty (s : string) : JS.split_LF s <> [].
Proof.
  destruct s as [|c s]; simpl; [discriminate|].
  destruct (Ascii.eqb c JS.LF); [discriminate|].
  destruct (JS.split_LF s); discriminate.
Qed.

Lemma string_app_assoc (a b c : string) : ((a ++ b) ++ c = a ++ (b ++ c))%string.
Proof. induction a as [|x a IH]; simpl; [reflexivity | now rewrite IH]. Qed.

Lemma string_app_nil_r (a : string) : (a ++ "" = a)%string.
Proof. induction a as [|x a IH]; simpl; [reflexivity | now rewrite IH]. Qed.

Lemma truthy_string_app (a b : string) :
  JS.truthy_string (a ++ b) = JS.truthy_string a || JS.truthy_string b.
Proof. destruct a; simpl; [reflexivity | reflexivity]. Qed.

Lemma truthy_string_false (a : string) : JS.truthy_string a = false -> a = "".
Proof. destruct a; [reflexivity | discriminate]. Qed.

(** ** The session store *)

Section StoreFacts.

Variable JSON_parse : string -> option json.

Lemma persistChats_storage (w : World) :
  localStorage (browser (persistChats w)) =
    match chats (sessions w) with
    | [] => localStorage (browser w)
    | _ :: _ => Some (chats (sessions w))
    end.
Proof.
  unfold persistChats. destruct (chats (sessions w)); reflexivity.
Qed.

Lemma persistChats_frame (w : World) :
  transcript (persistChats w) = transcript w /\
  sessions (persistChats w) = sessions w /\
  scrolling (persistChats w) = scrolling w.
Proof.
  unfold persistChats. destruct (0 <? _)%nat; simpl; auto.
Qed.

Lemma updateCurrentChat_frame (w : World) :
  transcript (updateCurrentChat w) = transcript w /\
  currentChatId (sessions (updateCurrentChat w)) = currentChatId (sessions w) /\
  scrolling (updateCurrentChat w) = scrolling w /\
  browser (updateCurrentChat w) = browser w.
Proof.
  unfold updateCurrentChat. destruct (_ && _); simpl; auto.
Qed.

Lemma updateCurrentChat_ids (w : World) :
  map StoredChat.id (chats (sessions (updateCurrentChat w))) =
  map StoredChat.id (chats (sessions w)).
Proof.
  unfold updateCurrentChat. destruct (_ && _); simpl; [|reflexivity].
  rewrite map_map. apply map_ext. intro chat.
  destruct (id_is _ _); reflexivity.
Qed.

Lemma scrollToBottom_frame (c : option Container) (w : World) :
  transcript (scrollToBottom c w) = transcript w /\
  sessions (scrollToBottom c w) = sessions w /\
  localStorage (browser (scrollToBottom c w)) = localStorage (browser w) /\
  isAutoScrollEnabled (scrolling (scrollToBottom c w)) = isAutoScrollEnabled (scrolling w) /\
  isScrolling (scrolling (scrollToBottom c w)) = isScrolling (scrolling w) /\
  scrollToCalls (browser (scrollToBottom c w)) = scrollToCalls (browser w).
Proof.
  unfold scrollToBottom. destruct c; [|auto 10].
  destruct (scrollRef (scrolling w)); simpl; auto 10.
Qed.

Lemma autoScroll_frame (c : option Container) (w : World) :
  transcript (autoScroll c w) = transcript w /\
  sessions (autoScroll c w) = sessions w /\
  localStorage (browser (autoScroll c w)) = localStorage (browser w) /\
  isAutoScrollEnabled (scrolling (autoScroll c w)) = isAutoScrollEnabled (scrolling w) /\
  isScrolling (scrolling (autoScroll c w)) = isScrolling (scrolling w) /\
  scrollToCalls (browser (autoScroll c w)) = scrollToCalls (browser w).
Proof.
  unfold autoScroll. destruct (_ && _); [apply scrollToBottom_frame | auto 10].
Qed.

(** Effects never touch the transcript nor the current session id. *)
Lemma effects_frame (es : list Event) :
  forallb isEffect es = true ->
  forall w, transcript (run JSON_parse es w) = transcript w /\
            currentChatId (sessions (run JSON_parse es w)) = currentChatId (sessions w).
Proof.
  unfold run. induction es as [|e es IH]; simpl; intros H w; [auto|].
  apply andb_prop in H as [He Hes].
  destruct (IH Hes (step JSON_parse w e)) as [Ht Hc]. rewrite Ht, Hc.
  destruct e; try discriminate; simpl.
  - destruct (persistChats_frame w) as (-> & -> & _). auto.
  - destruct (updateCurrentChat_frame w) as (-> & -> & _). auto.
  - destruct (autoScroll_frame container w) as (-> & -> & _). auto.
Qed.

(** With no session in memory, effects leave the session list empty and
    the durable record as it is. *)
Lemma effects_keep_empty_store (es : list Event) :
  forallb isEffect es = true ->
  forall w, chats (sessions w) = [] ->
    chats (sessions (run JSON_parse es w)) = [] /\
    localStorage (browser (run JSON_parse es w)) = localStorage (browser w).
Proof.
  unfold run. induction es as [|e es IH]; simpl; intros H w Hw; [auto|].
  apply andb_prop in H as [He Hes].
  assert (chats (sessions (step JSON_parse w e)) = [] /\
          localStorage (browser (step JSON_parse w e)) = localStorage (browser w))
    as [Hc Hl].
  { destruct e; try discriminate; simpl.
    - rewrite persistChats_storage, Hw.
      destruct (persistChats_frame w) as (_ & -> & _). auto.
    - unfold updateCurrentChat. destruct (_ && _); simpl; [|auto].
      rewrite Hw. auto.
    - destruct (autoScroll_frame container w) as (_ & -> & -> & _). auto. }
  destruct (IH Hes _ Hc) as [H1 H2]. rewrite H1, H2, Hl. auto.
Qed.

End StoreFacts.

Lemma deleteChat_chats (chatId : string) (w : World) :
  chats (sessions (deleteChat chatId w)) =
  filter (fun chat => negb (String.eqb (StoredChat.id chat) chatId)) (chats (sessions w)).
Proof.
  unfold deleteChat. destruct (id_is _ _); reflexivity.
Qed.

Lemma id_is_spec (i : option string) (chatId : string) :
  id_is i chatId = true <-> i = Some chatId.
Proof.
  destruct i as [s|]; simpl.
  - rewrite String.eqb_eq. split; congruence.
  - split; discriminate.
Qed.

(** C5.  Deleting the current session removes it, leaves no current session
    and empties the transcript; deleting another session removes that
    session only: the current session id and the transcript stay as they
    were.  Both hold in every state and survive the effects that run
    afterwards. *)
Theorem C5_delete_semantics
    (JSON_parse : string -> option json) (w : World) (chatId : string) (es : list Event) :
  forallb isEffect es = true ->
  let w' := deleteChat chatId w in
  let w'' := run JSON_parse es w' in
  (forall chat, In chat (chats (sessions w')) <->
                In chat (chats (sessions w)) /\ StoredChat.id chat <> chatId) /\
  (currentChatId (sessions w) = Some chatId ->
     currentChatId (sessions w'') = None /\ messages (transcript w'') = []) /\
  (currentChatId (sessions w) <> Some chatId ->
     currentChatId (sessions w'') = currentChatId (sessions w) /\
     messages (transcript w'') = messages (transcript w)).
Proof.
  intros Hes w' w''.
  destruct (effects_frame JSON_parse es Hes w') as [Ht Hc].
  fold w'' in Ht, Hc. rewrite Ht, Hc. clear Ht Hc. subst w'.
  split; [|split].
  - intro chat. rewrite deleteChat_chats, filter_In, negb_true_iff, String.eqb_neq.
    reflexivity.
  - intro Hcur. unfold deleteChat.
    apply id_is_spec in Hcur. rewrite Hcur. auto.
  - intro Hcur. unfold deleteChat.
    destruct (id_is (currentChatId (sessions w)) chatId) eqn:E.
    + apply id_is_spec in E. contradiction.
    + auto.
Qed.

Lemma C5_delete_semantics_witness :
  (currentChatId (sessions (run json_parse [UpdateChatEffect; PersistEffect]
                              (deleteChat "chat-b" twoChats))) = None /\
   messages (transcript (run json_parse [UpdateChatEffect; PersistEffect]
                           (deleteChat "chat-b" twoChats))) = []) /\
  (currentChatId (sessions (run json_parse [UpdateChatEffect; PersistEffect]
                              (deleteChat "chat-a" twoChats))) = Some "chat-b" /\
   messages (transcript (run json_parse [UpdateChatEffect; PersistEffect]
                           (deleteChat "chat-a" twoChats))) = messages (transcript twoChats)).
Proof.
  split.
  - apply (C5_delete_semantics json_parse twoChats "chat-b"
             [UpdateChatEffect; PersistEffect] eq_refl).
    reflexivity.
  - apply (C5_delete_semantics json_parse twoChats "chat-a"
             [UpdateChatEffect; PersistEffect] eq_refl).
    discriminate.
Defined.

(** C6.  [clearAllChats] leaves no session, no current session, an empty
    transcript and no durable record, whatever effects run afterwards; a
    page load after it finds nothing stored and ends with exactly one
    session, new, empty and current. *)
Theorem C6_clear_all_then_restart
    (JSON_parse : string -> option json) (w : World) (es : list Event)
    (chatId now : string) :
  forallb isEffect es = true ->
  let w1 := run JSON_parse es (clearAllChats w) in
  let w2 := restart chatId now w1 in
  chats (sessions w1) = [] /\
  currentChatId (sessions w1) = None /\
  messages (transcript w1) = [] /\
  localStorage (browser w1) = None /\
  localStorage (browser (initialWorld (localStorage (browser w1)))) = None /\
  chats (sessions w2) = [freshChat chatId now] /\
  currentChatId (sessions w2) = Some chatId /\
  messages (transcript w2) = [].
Proof.
  intros Hes w1 w2.
  destruct (effects_frame JSON_parse es Hes (clearAllChats w)) as [Ht Hc].
  destruct (effects_keep_empty_store JSON_parse es Hes (clearAllChats w) eq_refl)
    as [Hch Hls].
  fold w1 in Ht, Hc, Hch, Hls.
  assert (Hnone : localStorage (browser w1) = None) by (rewrite Hls; reflexivity).
  assert (Hw2 : w2 = createNewChat chatId now (initialWorld None)).
  { subst w2. unfold restart, mountEffect. rewrite Hnone. reflexivity. }
  split; [exact Hch|].
  split; [rewrite Hc; reflexivity|].
  split; [rewrite Ht; reflexivity|].
  split; [exact Hnone|].
  split; [rewrite Hnone; reflexivity|].
  rewrite Hw2. split; [reflexivity|]. split; reflexivity.
Qed.

Lemma C6_clear_all_then_restart_witness :
  localStorage (browser (run json_parse [PersistEffect; UpdateChatEffect]
                           (clearAllChats (persistChats twoChats)))) = None /\
  chats (sessions (restart "chat-c" "t3"
                     (run json_parse [PersistEffect; UpdateChatEffect]
                        (clearAllChats (persistChats twoChats))))) =
    [freshChat "chat-c" "t3"].
Proof.
  pose proof (C6_clear_all_then_restart json_parse (persistChats twoChats)
                [PersistEffect; UpdateChatEffect] "chat-c" "t3" eq_refl)
    as (_ & _ & _ & H4 & _ & H5 & _).
  split; assumption.
Defined.

(** ** What a read leaves alone *)

Section StreamFrame.

Variable JSON_parse : string -> option json.

Lemma sameOutsideStream_refl (w : World) : sameOutsideStream w w.
Proof. unfold sameOutsideStream. auto 10. Qed.

Lemma sameOutsideStream_trans (w1 w2 w3 : World) :
  sameOutsideStream w1 w2 -> sameOutsideStream w2 w3 -> sameOutsideStream w1 w3.
Proof.
  unfold sameOutsideStream.
  intros (a1 & a2 & a3 & a4 & a5 & a6) (b1 & b2 & b3 & b4 & b5 & b6).
  repeat split; congruence.
Qed.

Lemma applyBlock_frame (cur : Message) (block : json) (w w' : World) :
  applyBlock cur block w = Some w' -> sameOutsideStream w w'.
Proof.
  unfold applyBlock.
  destruct (Json.get "content_type" block) as [ct|]; [|discriminate].
  destruct (Json.get "thinking" block) as [bt|]; [|discriminate].
  destruct (Json.get "text" block) as [bx|]; [|discriminate].
  destruct (Json.strictEqString ct "thinking" && Json.truthy bt).
  - simpl. intro H. injection H as <-. unfold sameOutsideStream. simpl. auto 10.
  - destruct (Json.truthy bx).
    + simpl. intro H. injection H as <-. unfold sameOutsideStream. simpl. auto 10.
    + destruct (currentMessageRef (transcript w)); [|discriminate].
      intro H. injection H as <-. unfold sameOutsideStream. simpl. auto 10.
Qed.

Lemma forEachBlock_frame (blocks : list json) (w : World) :
  sameOutsideStream w (forEachBlock blocks w).
Proof.
  revert w. induction blocks as [|block rest IH]; intro w; simpl.
  - apply sameOutsideStream_refl.
  - destruct (currentMessageRef (transcript w)) as [cur|];
      [|apply sameOutsideStream_refl].
    destruct (applyBlock cur block w) as [w'|] eqn:E;
      [|apply sameOutsideStream_refl].
    eapply sameOutsideStream_trans; [eapply applyBlock_frame; eassumption | apply IH].
Qed.

Lemma processLine_frame (line : string) (w : World) :
  sameOutsideStream w (processLine JSON_parse line w).
Proof.
  unfold processLine.
  destruct (_ || _); [apply sameOutsideStream_refl|].
  destruct (JSON_parse _) as [data|]; [|apply sameOutsideStream_refl].
  destruct (Json.get "type" data) as [ty|]; [|apply sameOutsideStream_refl].
  destruct (Json.strictEqString ty "content").
  - destruct (Json.get "content" data) as [blocks|]; [|apply sameOutsideStream_refl].
    destruct (Json.iterate blocks); [|apply sameOutsideStream_refl].
    apply forEachBlock_frame.
  - destruct (Json.strictEqString ty "message_stop");
      [|apply sameOutsideStream_refl].
    unfold sameOutsideStream. simpl. auto 10.
Qed.

Lemma processLines_frame (lines : list string) (w : World) :
  sameOutsideStream w (fold_left (fun acc line => processLine JSON_parse line acc) lines w).
Proof.
  revert w. induction lines as [|l ls IH]; intro w; simpl.
  - apply sameOutsideStream_refl.
  - eapply sameOutsideStream_trans; [apply processLine_frame | apply IH].
Qed.

Lemma processChunk_frame (chunk : string) (w : World) :
  sameOutsideStream w (processChunk JSON_parse chunk w).
Proof. apply processLines_frame. Qed.

End StreamFrame.

(** ** The animation frame queue *)

Lemma scrollCallbacks_run (pending : list positive) (w : World) :
  let w' := fold_left (fun acc _ => scrollCallback acc) pending w in
  transcript w' = transcript w /\
  sessions w' = sessions w /\
  localStorage (browser w') = localStorage (browser w) /\
  framePending (browser w') = framePending (browser w) /\
  scrollToCalls (browser w') = length pending + scrollToCalls (browser w) /\
  isAutoScrollEnabled (scrolling w') = isAutoScrollEnabled (scrolling w).
Proof.
  revert w. induction pending as [|h rest IH]; intro w; simpl.
  - auto 10.
  - destruct (IH (scrollCallback w)) as (H1 & H2 & H3 & H4 & H5 & H6).
    rewrite H1, H2, H3, H4, H5, H6. simpl.
    repeat split; try reflexivity. lia.
Qed.

Lemma animationFrame_spec (w : World) :
  transcript (animationFrame w) = transcript w /\
  sessions (animationFrame w) = sessions w /\
  localStorage (browser (animationFrame w)) = localStorage (browser w) /\
  framePending (browser (animationFrame w)) = [] /\
  scrollToCalls (browser (animationFrame w)) =
    length (framePending (browser w)) + scrollToCalls (browser w) /\
  isAutoScrollEnabled (scrolling (animationFrame w)) = isAutoScrollEnabled (scrolling w).
Proof.
  unfold animationFrame.
  match goal with |- context [fold_left _ ?p ?w0] =>
    destruct (scrollCallbacks_run p w0) as (H1 & H2 & H3 & H4 & H5 & H6) end.
  rewrite H1, H2, H3, H4, H5, H6. simpl. auto 10.
Qed.

(** ** The durable record *)

Lemma step_storage (JSON_parse : string -> option json) (w : World) (e : Event) :
  localStorage (browser (step JSON_parse w e)) = localStorage (browser w) \/
  (e = PersistEffect /\ chats (sessions w) <> [] /\
   localStorage (browser (step JSON_parse w e)) = Some (chats (sessions w))) \/
  (e = ClearAllChats /\ localStorage (browser (step JSON_parse w e)) = None).
Proof.
  destruct e; simpl.
  - left. reflexivity.
  - left. reflexivity.
  - left. reflexivity.
  - left. unfold deleteChat. destruct (id_is _ _); reflexivity.
  - right. right. auto.
  - left. reflexivity.
  - left. unfold handleSubmit.
    destruct (_ || _); [reflexivity|]. destruct (negb _); [reflexivity|].
    destruct (negb _); reflexivity.
  - left. reflexivity.
  - left. destruct (processChunk_frame JSON_parse chunk w) as (_ & _ & -> & _).
    reflexivity.
  - left. unfold endSubmit. simpl. destruct (scrollRef _); reflexivity.
  - rewrite persistChats_storage. destruct (chats (sessions w)) eqn:E.
    + left. reflexivity.
    + right. left. repeat split. discriminate.
  - left. destruct (updateCurrentChat_frame w) as (_ & _ & _ & ->). reflexivity.
  - left. apply autoScroll_frame.
  - left. unfold handleScroll. destruct container; [|reflexivity].
    destruct (isScrolling _); reflexivity.
  - left. apply animationFrame_spec.
Qed.

Lemma filter_all_out (chatId : string) (l : list StoredChat.t) :
  (forall chat, In chat l -> StoredChat.id chat = chatId) ->
  filter (fun chat => negb (String.eqb (StoredChat.id chat) chatId)) l = [].
Proof.
  induction l as [|c l IH]; simpl; intro H; [reflexivity|].
  rewrite (H c (or_introl eq_refl)), String.eqb_refl. simpl.
  apply IH. intros chat Hin. apply H. right. exact Hin.
Qed.

(** C10.  The durable record is written by the persist effect only, and
    only when the session list is not empty; it is erased by [clearAllChats]
    only.  So deleting the last session leaves the record as it was before
    the deletion, and the next page load brings the deleted session back
    into the list. *)
Theorem C10_last_delete_is_not_persisted (JSON_parse : string -> option json) :
  (forall w e,
     localStorage (browser (step JSON_parse w e)) = localStorage (browser w) \/
     (e = PersistEffect /\ chats (sessions w) <> [] /\
      localStorage (browser (step JSON_parse w e)) = Some (chats (sessions w))) \/
     (e = ClearAllChats /\ localStorage (browser (step JSON_parse w e)) = None)) /\
  (forall w chatId es newId now,
     forallb isEffect es = true ->
     chats (sessions w) <> [] ->
     (forall chat, In chat (chats (sessions w)) -> StoredChat.id chat = chatId) ->
     localStorage (browser w) = Some (chats (sessions w)) ->
     let w1 := run JSON_parse es (deleteChat chatId w) in
     chats (sessions w1) = [] /\
     localStorage (browser w1) = Some (chats (sessions w)) /\
     chats (sessions (restart newId now w1)) =
       chats (sessions w) ++ [freshChat newId now]).
Proof.
  split; [apply step_storage|].
  intros w chatId es newId now Hes Hne Hall Hst w1.
  assert (Hdel : chats (sessions (deleteChat chatId w)) = []).
  { rewrite deleteChat_chats. apply filter_all_out. exact Hall. }
  destruct (effects_keep_empty_store JSON_parse es Hes _ Hdel) as [Hc Hl].
  fold w1 in Hc, Hl.
  assert (Hl' : localStorage (browser w1) = Some (chats (sessions w))).
  { rewrite Hl, <- Hst. unfold deleteChat. destruct (id_is _ _); reflexivity. }
  split; [exact Hc|]. split; [exact Hl'|].
  unfold restart, mountEffect. rewrite Hl'. reflexivity.
Qed.

Lemma C10_last_delete_is_not_persisted_witness :
  chats (sessions (run json_parse [PersistEffect; UpdateChatEffect]
                     (deleteChat "chat-a"
                        (persistChats (createNewChat "chat-a" "t1" (initialWorld None)))))) = [] /\
  localStorage (browser (run json_parse [PersistEffect; UpdateChatEffect]
                           (deleteChat "chat-a"
                              (persistChats (createNewChat "chat-a" "t1" (initialWorld None))))))
    = Some [freshChat "chat-a" "t1"] /\
  chats (sessions (restart "chat-b" "t2"
                     (run json_parse [PersistEffect; UpdateChatEffect]
                        (deleteChat "chat-a"
                           (persistChats (createNewChat "chat-a" "t1" (initialWorld None)))))))
    = [freshChat "chat-a" "t1"; freshChat "chat-b" "t2"].
Proof.
  refine (proj2 (C10_last_delete_is_not_persisted json_parse)
            (persistChats (createNewChat "chat-a" "t1" (initialWorld None))) "chat-a"
            [PersistEffect; UpdateChatEffect] "chat-b" "t2" eq_refl _ _ eq_refl).
  - discriminate.
  - intros chat [<-|[]]. reflexivity.
Defined.

(** ** Title derivation *)

Lemma slice_to_prefix (n : nat) (s : string) : String.prefix (JS.slice_to n s) s = true.
Proof.
  revert s. induction n as [|n IH]; intros [|c s]; simpl; try reflexivity.
  rewrite IH. destruct (ascii_dec c c); [reflexivity | contradiction].
Qed.

Lemma slice_to_length (n : nat) (s : string) :
  String.length (JS.slice_to n s) = Nat.min n (String.length s).
Proof.
  revert s. induction n as [|n IH]; intros [|c s]; simpl; try reflexivity.
  now rewrite IH.
Qed.

Lemma appendOrReplace_last_assistant (m a : Message) (prev : list Message) :
  role a = assistant ->
  appendOrReplaceLastAssistantMessage m (prev ++ [a]) = prev ++ [m].
Proof.
  intro Ha. unfold appendOrReplaceLastAssistantMessage.
  rewrite length_app. simpl.
  replace (length prev + 1 - 1) with (length prev) by lia.
  replace (0 <? length prev + 1)%nat with true by (symmetry; apply Nat.ltb_lt; lia).
  rewrite nth_error_app2 by lia. rewrite Nat.sub_diag. simpl.
  rewrite Ha. simpl.
  rewrite firstn_app, Nat.sub_diag, firstn_all. simpl. rewrite app_nil_r. reflexivity.
Qed.

Lemma appendOrReplace_last_user (m u : Message) (prev : list Message) :
  role u = user ->
  appendOrReplaceLastAssistantMessage m (prev ++ [u]) = (prev ++ [u]) ++ [m].
Proof.
  intro Hu. unfold appendOrReplaceLastAssistantMessage.
  rewrite length_app. simpl.
  replace (length prev + 1 - 1) with (length prev) by lia.
  replace (0 <? length prev + 1)%nat with true by (symmetry; apply Nat.ltb_lt; lia).
  rewrite nth_error_app2 by lia. rewrite Nat.sub_diag. simpl.
  rewrite Hu. reflexivity.
Qed.


(** A list is empty or ends with some message of either role. *)
Lemma last_cases (l : list Message) :
  l = [] \/
  (exists prev a, l = prev ++ [a] /\ role a = assistant) \/
  (exists prev u, l = prev ++ [u] /\ role u = user).
Proof.
  destruct l as [|m l']; [left; reflexivity | right].
  destruct (@exists_last _ (m :: l') ltac:(discriminate)) as [prev [x Hx]].
  destruct (role x) eqn:E; [right | left]; exists prev, x; auto.
Qed.

(** ** The read loop, the decoder and the accumulator *)



(** On strings, [v || ""] and [v ?? ""] are the same text. *)
Lemma orEmpty_nullish (v : option string) :
  orEmpty v = match v with Some t => t | None => "" end.
Proof. destruct v as [[|c t]|]; reflexivity. Qed.

Lemma concat_fragment (t : string) (v : jsval) :
  Json.concat t v = (t ++ Json.concat "" v)%string.
Proof. destruct v; reflexivity. Qed.

(** A line that begins with ["data: "] is not blank, so the first test of
    [processLine] adds nothing to the second. *)
Lemma dataLine_not_blank (line : string) :
  JS.startsWith "data: " line = true -> JS.truthy_string (JS.trim line) = true.
Proof.
  unfold JS.startsWith. destruct line as [|c rest]; cbn [String.prefix]; [discriminate|].
  destruct (ascii_dec "d"%char c) as [<-|]; [intros _ | discriminate].
  unfold JS.trim. simpl. destruct (JS.trimEnd rest); reflexivity.
Qed.

Lemma processLine_guard (line : string) :
  negb (JS.truthy_string (JS.trim line)) || negb (JS.startsWith "data: " line) =
  negb (JS.startsWith "data: " line).
Proof.
  destruct (JS.startsWith "data: " line) eqn:E.
  - rewrite (dataLine_not_blank line E). reflexivity.
  - apply orb_true_r.
Qed.

Section StreamFacts.

Variable JSON_parse : string -> option json.

(** One round of the loop is one step of the accumulator over the events
    of the block, followed by the update of the last message. *)
Lemma applyBlock_spec (cur : Message) (block : json) (w : World) :
  currentMessageRef (transcript w) = Some cur ->
  match decodeBlock block with
  | None => applyBlock cur block w = None
  | Some evs =>
      exists w', applyBlock cur block w = Some w' /\
        currentMessageRef (transcript w') = Some (fold_left accumulate evs cur) /\
        messages (transcript w') =
          appendOrReplaceLastAssistantMessage (fold_left accumulate evs cur)
            (messages (transcript w))
  end.
Proof.
  intro Hcur. unfold decodeBlock, applyBlock.
  destruct (Json.get "content_type" block) as [ct|]; [|reflexivity].
  destruct (Json.get "thinking" block) as [bt|]; [|reflexivity].
  destruct (Json.get "text" block) as [bx|]; [|reflexivity].
  destruct (Json.strictEqString ct "thinking" && Json.truthy bt).
  - eexists. split; [reflexivity|]. simpl.
    rewrite (concat_fragment _ bt), orEmpty_nullish. auto.
  - destruct (Json.truthy bx).
    + eexists. split; [reflexivity|]. simpl.
      rewrite (concat_fragment _ bx). auto.
    + rewrite Hcur. eexists. split; [reflexivity|]. simpl. auto.
Qed.










End StreamFacts.

(** ** Slot reuse *)

Lemma step_keeps_transcript (JSON_parse : string -> option json) (w : World) (e : Event) :
  isStreamEvent e = true ->
  (forall chunk, e <> Read chunk) ->
  transcript (step JSON_parse w e) = transcript w.
Proof.
  intros He Hr. destruct e; try discriminate; simpl.
  - exfalso. eapply Hr. reflexivity.
  - apply persistChats_frame.
  - apply updateCurrentChat_frame.
  - apply autoScroll_frame.
  - unfold handleScroll. destruct container; [|reflexivity].
    destruct (isScrolling _); reflexivity.
  - apply animationFrame_spec.
Qed.






Section SlotFacts.

Variable JSON_parse : string -> option json.










End SlotFacts.




(** ** The thinking field *)







(** ** The accumulator rules *)










(** The sample stream of the design document: two thinking deltas, a text
    delta and the stop record. *)
Lemma sample_stream_final_message :
  decodeChunks json_parse [unlines sampleLines] =
    [ContentDelta Thinking "Let's "; ContentDelta Thinking "see.";
     ContentDelta Text "42"; Stop] /\
  currentMessageRef (transcript (readLoop json_parse [unlines sampleLines] sampleWorld)) =
    Some {| role := assistant; content := "42"; thinking := Some "Let's see." |} /\
  messages (transcript (readLoop json_parse [unlines sampleLines] sampleWorld)) =
    [ {| role := user; content := "How many r's in strawberry?"; thinking := None |};
      {| role := assistant; content := "42"; thinking := Some "Let's see." |} ] /\
  isThinkingComplete (transcript (readLoop json_parse [unlines sampleLines] sampleWorld)) =
    true.
Proof. vm_compute. repeat split. Qed.

(** ** Chunk boundaries *)

Lemma processLine_empty (JSON_parse : string -> option json) (w : World) :
  processLine JSON_parse "" w = w.
Proof. reflexivity. Qed.

Lemma processChunk_empty (JSON_parse : string -> option json) (w : World) :
  processChunk JSON_parse "" w = w.
Proof. reflexivity. Qed.

(** A read that ends at a line end can be joined with what follows. *)
Lemma processChunk_app_LF (JSON_parse : string -> option json) (a b : string) (w : World) :
  processChunk JSON_parse (a ++ String JS.LF b) w =
  processChunk JSON_parse b (processChunk JSON_parse (a ++ String JS.LF "") w).
Proof.
  unfold processChunk. rewrite !split_LF_app_LF, !fold_left_app. reflexivity.
Qed.

Lemma decodeLines_app_LF (JSON_parse : string -> option json) (a b : string) :
  flat_map (decodeLine JSON_parse) (JS.split_LF (a ++ String JS.LF b)) =
  flat_map (decodeLine JSON_parse) (JS.split_LF (a ++ String JS.LF "")) ++
  flat_map (decodeLine JSON_parse) (JS.split_LF b).
Proof.
  rewrite !split_LF_app_LF, !flat_map_app. simpl.
  rewrite !app_nil_r. reflexivity.
Qed.

(** Where the read loop is indifferent to the reads: when every read but
    the last ends at a line end, the loop does what it does on the whole
    stream read at once, and sees the same events. *)
Lemma readLoop_lineAligned (JSON_parse : string -> option json) (chunks : list string) :
  lineAligned chunks ->
  (forall w, readLoop JSON_parse chunks w = processChunk JSON_parse (joinChunks chunks) w) /\
  decodeChunks JSON_parse chunks = decodeChunks JSON_parse [joinChunks chunks].
Proof.
  unfold readLoop, decodeChunks.
  induction chunks as [|c rest IH]; intro Ha.
  - split; reflexivity.
  - destruct rest as [|c2 rest].
    + simpl. rewrite string_app_nil_r. split; reflexivity.
    + destruct Ha as [Hc Hrest]. destruct (IH Hrest) as [IHw IHe].
      change (joinChunks (c :: c2 :: rest)) with (c ++ joinChunks (c2 :: rest))%string.
      split.
      * intro w.
        change (fold_left ?f (c :: c2 :: rest) w) with (fold_left f (c2 :: rest) (f w c)).
        rewrite IHw. destruct Hc as [->|[body ->]].
        -- reflexivity.
        -- rewrite string_app_assoc. cbn [String.append].
           symmetry. apply processChunk_app_LF.
      * change (flat_map ?f (c :: c2 :: rest)) with (f c ++ flat_map f (c2 :: rest)).
        rewrite IHe. cbn [flat_map]. rewrite !app_nil_r.
        destruct Hc as [->|[body ->]].
        -- reflexivity.
        -- rewrite string_app_assoc. cbn [String.append].
           symmetry. apply decodeLines_app_LF.
Qed.

(** What happens to a line that spans two reads: both halves are decoded
    as lines of their own, the first fails to parse, the second is ignored,
    and the fragment never reaches the message.  The same stream read at
    once gives the fragment. *)
Lemma split_line_is_lost :
  joinChunks [wire "data: {'type':'content','content':[{'te";
              unlines [wire "xt':'42'}]}"]] =
    joinChunks [unlines [wire "data: {'type':'content','content':[{'text':'42'}]}"]] /\
  decodeChunks json_parse
    [unlines [wire "data: {'type':'content','content':[{'text':'42'}]}"]] =
    [ContentDelta Text "42"] /\
  decodeChunks json_parse
    [wire "data: {'type':'content','content':[{'te";
     unlines [wire "xt':'42'}]}"]] = [Malformed] /\
  currentMessageRef (transcript
    (readLoop json_parse
       [unlines [wire "data: {'type':'content','content':[{'text':'42'}]}"]]
       sampleWorld)) =
    Some {| role := assistant; content := "42"; thinking := Some "" |} /\
  currentMessageRef (transcript
    (readLoop json_parse
       [wire "data: {'type':'content','content':[{'te";
        unlines [wire "xt':'42'}]}"]]
       sampleWorld)) =
    Some {| role := assistant; content := ""; thinking := Some "" |}.
Proof. vm_compute. repeat split. Qed.

(** C1, as claimed, fails: two partitions of the same bytes decode to
    different events when one of them cuts a line. *)
Lemma C1_chunking_invariance_counterexample :
  ~ (forall chunks1 chunks2 : list string,
       joinChunks chunks1 = joinChunks chunks2 ->
       decodeChunks json_parse chunks1 = decodeChunks json_parse chunks2).
Proof.
  intro H. destruct split_line_is_lost as (Hjoin & Hwhole & Hcut & _).
  specialize (H _ _ Hjoin). rewrite Hwhole, Hcut in H. discriminate H.
Qed.

(** C1, amended.  Nothing is kept from one read to the next: each read is
    cut at its line feeds and every piece is decoded as a line.  So the
    events, and the state the read loop ends in, are the same for all
    partitions of a stream in which every read but the last ends at a line
    end. *)
Theorem C1_line_aligned_chunking_invariance
    (JSON_parse : string -> option json) (chunks1 chunks2 : list string) :
  lineAligned chunks1 ->
  lineAligned chunks2 ->
  joinChunks chunks1 = joinChunks chunks2 ->
  decodeChunks JSON_parse chunks1 = decodeChunks JSON_parse chunks2 /\
  (forall w, readLoop JSON_parse chunks1 w = readLoop JSON_parse chunks2 w) /\
  decodeChunks JSON_parse chunks1 =
    flat_map (decodeLine JSON_parse) (JS.split_LF (joinChunks chunks1)).
Proof.
  intros H1 H2 Hjoin.
  destruct (readLoop_lineAligned JSON_parse chunks1 H1) as [Hw1 He1].
  destruct (readLoop_lineAligned JSON_parse chunks2 H2) as [Hw2 He2].
  split; [rewrite He1, He2, Hjoin; reflexivity|].
  split; [intro w; rewrite Hw1, Hw2, Hjoin; reflexivity|].
  rewrite He1. unfold decodeChunks. simpl. apply app_nil_r.
Qed.

Lemma C1_line_aligned_chunking_invariance_witness :
  decodeChunks json_parse
    [unlines [wire "data: {'type':'content','content':[{'text':'4'}]}"];
     unlines [wire "data: {'type':'content','content':[{'text':'2'}]}";
              wire "data: {'type':'message_stop'}"]] =
  decodeChunks json_parse
    [unlines [wire "data: {'type':'content','content':[{'text':'4'}]}";
              wire "data: {'type':'content','content':[{'text':'2'}]}";
              wire "data: {'type':'message_stop'}"]].
Proof.
  refine (proj1 (C1_line_aligned_chunking_invariance json_parse
    [unlines [wire "data: {'type':'content','content':[{'text':'4'}]}"];
     unlines [wire "data: {'type':'content','content':[{'text':'2'}]}";
              wire "data: {'type':'message_stop'}"]]
    [unlines [wire "data: {'type':'content','content':[{'text':'4'}]}";
              wire "data: {'type':'content','content':[{'text':'2'}]}";
              wire "data: {'type':'message_stop'}"]] _ _ _)).
  - split; [|exact I]. right.
    exists (wire "data: {'type':'content','content':[{'text':'4'}]}"). reflexivity.
  - exact I.
  - reflexivity.
Defined.

(** ** The end of the stream *)

(** C3, as claimed, fails: a content record that follows a [message_stop]
    record is processed like any other. *)
Lemma C3_stop_is_terminal_counterexample :
  ~ (forall (w : World) (stop : string) (rest : list string),
       decodeLine json_parse stop = [Stop] ->
       fold_left (fun acc line => processLine json_parse line acc) (stop :: rest) w =
       processLine json_parse stop w).
Proof.
  intro H.
  specialize (H sampleWorld (wire "data: {'type':'message_stop'}")
                [wire "data: {'type':'content','content':[{'text':'42'}]}"]
                ltac:(vm_compute; reflexivity)).
  apply (f_equal (fun w => currentMessageRef (transcript w))) in H.
  vm_compute in H. discriminate H.
Qed.

(** C3, amended.  A [message_stop] record marks thinking as complete and
    changes nothing else; it does not end the decoding: the lines after it,
    in the same read and in later reads, are processed as they would be
    without it. *)
Theorem C3_stop_only_marks_thinking_complete
    (JSON_parse : string -> option json) (line : string) (data : json) (w : World) :
  JS.startsWith "data: " line = true ->
  JSON_parse (JS.slice_from 6 line) = Some data ->
  Json.get "type" data = Some (Some (JString "message_stop")) ->
  processLine JSON_parse line w = setIsThinkingComplete true w /\
  decodeLine JSON_parse line = [Stop] /\
  (forall rest,
     fold_left (fun acc l => processLine JSON_parse l acc) (line :: rest) w =
     fold_left (fun acc l => processLine JSON_parse l acc) rest
       (setIsThinkingComplete true w)) /\
  (forall more chunks,
     JS.split_LF line = [line] ->
     readLoop JSON_parse ((line ++ String JS.LF more)%string :: chunks) w =
     readLoop JSON_parse (more :: chunks) (setIsThinkingComplete true w)).
Proof.
  intros Hd Hp Ht.
  assert (H1 : processLine JSON_parse line w = setIsThinkingComplete true w).
  { unfold processLine. rewrite processLine_guard, Hd, Hp, Ht. reflexivity. }
  split; [exact H1|]. split.
  { unfold decodeLine. rewrite Hd, Hp, Ht. reflexivity. }
  split.
  { intro rest. simpl. rewrite H1. reflexivity. }
  intros more chunks Hl. unfold readLoop. simpl. f_equal.
  rewrite processChunk_app_LF. f_equal.
  unfold processChunk. rewrite split_LF_app_LF, Hl. simpl. exact H1.
Qed.

Lemma C3_stop_only_marks_thinking_complete_witness :
  fold_left (fun acc l => processLine json_parse l acc)
    [wire "data: {'type':'message_stop'}";
     wire "data: {'type':'content','content':[{'text':'42'}]}"] sampleWorld =
  fold_left (fun acc l => processLine json_parse l acc)
    [wire "data: {'type':'content','content':[{'text':'42'}]}"]
    (setIsThinkingComplete true sampleWorld).
Proof.
  refine (proj1 (proj2 (proj2
    (@C3_stop_only_marks_thinking_complete json_parse
       (wire "data: {'type':'message_stop'}")
       (JObject [("type", JString "message_stop")]) sampleWorld _ _ _))) _).
  - reflexivity.
  - vm_compute. reflexivity.
  - reflexivity.
Defined.

(** ** The first turn of a session *)

Lemma appendOrReplace_head (m u : Message) (rest : list Message) :
  role u = user ->
  exists rest', appendOrReplaceLastAssistantMessage m (u :: rest) = u :: rest'.
Proof.
  intro Hu. destruct (last_cases (u :: rest)) as [H|[(prev & a & H & Ha)|(prev & x & H & Hx)]].
  - discriminate H.
  - rewrite H. rewrite appendOrReplace_last_assistant by exact Ha.
    destruct prev as [|p prev]; simpl in H; injection H as -> E.
    + rewrite Ha in Hu. discriminate.
    + exists (prev ++ [m]). reflexivity.
  - rewrite H. rewrite appendOrReplace_last_user by exact Hx. rewrite <- H.
    exists (rest ++ [m]). reflexivity.
Qed.

Section FirstTurn.

Variable JSON_parse : string -> option json.
Variables (before after : list StoredChat.t) (cid now text : string).

Hypothesis cid_truthy : JS.truthy_string cid = true.
Hypothesis cid_fresh : forall c, In c (before ++ after) -> StoredChat.id c <> cid.

Lemma forEachBlock_head (blocks : list json) (w : World) (rest : list Message) :
  messages (transcript w) = userMessageOf text :: rest ->
  exists rest', messages (transcript (forEachBlock blocks w)) = userMessageOf text :: rest'.
Proof.
  revert w rest. induction blocks as [|block blocks IH]; intros w rest Hm; simpl; [eauto|].
  destruct (currentMessageRef (transcript w)) as [cur|] eqn:Hc; [|eauto].
  pose proof (applyBlock_spec cur block w Hc) as H.
  destruct (decodeBlock block) as [evs|].
  - destruct H as (w' & -> & _ & Hm'). rewrite Hm in Hm'.
    destruct (appendOrReplace_head (fold_left accumulate evs cur) (userMessageOf text) rest eq_refl)
      as [rest' Hr].
    rewrite Hr in Hm'. eapply IH. exact Hm'.
  - rewrite H. eauto.
Qed.

Lemma processLine_head (line : string) (w : World) (rest : list Message) :
  messages (transcript w) = userMessageOf text :: rest ->
  exists rest', messages (transcript (processLine JSON_parse line w)) = userMessageOf text :: rest'.
Proof.
  intro Hm. unfold processLine.
  destruct (_ || _); [eauto|].
  destruct (JSON_parse _) as [data|]; [|eauto].
  destruct (Json.get "type" data) as [ty|]; [|eauto].
  destruct (Json.strictEqString ty "content").
  - destruct (Json.get "content" data) as [blocks|]; [|eauto].
    destruct (Json.iterate blocks); [|eauto].
    eapply forEachBlock_head. exact Hm.
  - destruct (Json.strictEqString ty "message_stop"); eauto.
Qed.

Lemma processChunk_head (chunk : string) (w : World) (rest : list Message) :
  messages (transcript w) = userMessageOf text :: rest ->
  exists rest', messages (transcript (processChunk JSON_parse chunk w)) = userMessageOf text :: rest'.
Proof.
  unfold processChunk. generalize (JS.split_LF chunk) as lines. intro lines.
  revert w rest. induction lines as [|l ls IH]; intros w rest Hm; simpl; [eauto|].
  destruct (processLine_head l w _ Hm) as [rest' Hr]. eapply IH. exact Hr.
Qed.

(** The update effect derives the title the first time it runs in the
    turn and keeps it afterwards. *)
Lemma updateCurrentChat_firstTurn (d : bool) (w : World) :
  firstTurn before after cid now text d w ->
  firstTurn before after cid now text true (updateCurrentChat w).
Proof.
  intros (Hcur & (rest & Hm) & chat & Hch & Hid & Hts & Hcase).
  unfold firstTurn, updateCurrentChat.
  rewrite Hcur, Hm. cbn [truthy_id length Nat.ltb Nat.leb andb].
  rewrite cid_truthy. cbn [andb sessions transcript setChats onSessions chats
                            currentChatId messages].
  split; [exact Hcur|]. split; [eauto|].
  rewrite Hch, !map_app. cbn [map id_is app].
  rewrite <- Hid, String.eqb_refl.
  assert (Hkeep : forall l, (forall c, In c l -> StoredChat.id c <> cid) ->
            map (fun c : StoredChat.t =>
                   if String.eqb (StoredChat.id chat) (StoredChat.id c)
                   then {| StoredChat.id := StoredChat.id c;
                           StoredChat.title :=
                             match length (StoredChat.messages c) with
                             | O => generateChatTitle (content (userMessageOf text))
                             | S _ => StoredChat.title c
                             end;
                           StoredChat.timestamp := StoredChat.timestamp c;
                           StoredChat.messages := userMessageOf text :: rest |}
                   else c) l = l).
  { intros l Hl. rewrite <- (map_id l) at 2. apply map_ext_in. intros c Hin.
    destruct (String.eqb (StoredChat.id chat) (StoredChat.id c)) eqn:E; [|reflexivity].
    apply String.eqb_eq in E. exfalso. apply (Hl c Hin). congruence. }
  rewrite (Hkeep before), (Hkeep after);
    try (intros c Hin; apply cid_fresh; apply in_or_app; auto).
  eexists. split; [reflexivity|].
  cbn [StoredChat.id StoredChat.timestamp StoredChat.title StoredChat.messages].
  split; [reflexivity|]. split; [exact Hts|]. right.
  split; [|discriminate].
  destruct Hcase as [(_ & _ & Hnil)|(Ht & Hne)].
  - rewrite Hnil. reflexivity.
  - destruct (StoredChat.messages chat); [contradiction|]. exact Ht.
Qed.

Lemma firstTurn_weaken (d : bool) (w : World) :
  firstTurn before after cid now text true w -> firstTurn before after cid now text d w.
Proof.
  intros (Hcur & Hm & chat & Hch & Hid & Hts & Hcase).
  split; [exact Hcur|]. split; [exact Hm|].
  exists chat. split; [exact Hch|]. split; [exact Hid|]. split; [exact Hts|].
  destruct Hcase as [(Hd & _)|H]; [discriminate | right; exact H].
Qed.

Lemma firstTurn_sessions (d : bool) (w w' : World) (rest' : list Message) :
  firstTurn before after cid now text d w ->
  sessions w' = sessions w ->
  messages (transcript w') = userMessageOf text :: rest' ->
  firstTurn before after cid now text d w'.
Proof.
  intros (Hcur & _ & Hch) Hs Hm. unfold firstTurn. rewrite Hs.
  split; [exact Hcur|]. split; [eauto | exact Hch].
Qed.

Lemma step_firstTurn (d : bool) (w : World) (e : Event) :
  isTurnEvent e = true ->
  firstTurn before after cid now text d w ->
  firstTurn before after cid now text d (step JSON_parse w e).
Proof.
  intros He Hf. pose proof Hf as (_ & (rest & Hm) & _).
  destruct e; try discriminate; simpl.
  - eapply firstTurn_sessions; [exact Hf | reflexivity | exact Hm].
  - eapply firstTurn_sessions; [exact Hf | reflexivity |].
    simpl. rewrite Hm. reflexivity.
  - destruct (processChunk_head chunk w _ Hm) as [rest' Hr].
    eapply firstTurn_sessions; [exact Hf | apply processChunk_frame | exact Hr].
  - eapply firstTurn_sessions; [exact Hf | |].
    + unfold endSubmit. simpl. destruct (scrollRef _); reflexivity.
    + unfold endSubmit. simpl. destruct (scrollRef _); exact Hm.
  - destruct (persistChats_frame w) as (Ht & Hs & _).
    eapply firstTurn_sessions; [exact Hf | exact Hs | rewrite Ht; exact Hm].
  - apply firstTurn_weaken. eapply updateCurrentChat_firstTurn. exact Hf.
  - destruct (autoScroll_frame container w) as (Ht & Hs & _).
    eapply firstTurn_sessions; [exact Hf | exact Hs | rewrite Ht; exact Hm].
  - unfold handleScroll. destruct container; [|exact Hf].
    destruct (isScrolling _); [exact Hf|].
    eapply firstTurn_sessions; [exact Hf | reflexivity | exact Hm].
  - destruct (animationFrame_spec w) as (Ht & Hs & _).
    eapply firstTurn_sessions; [exact Hf | exact Hs | rewrite Ht; exact Hm].
Qed.

Lemma run_firstTurn (d : bool) (es : list Event) (w : World) :
  forallb isTurnEvent es = true ->
  firstTurn before after cid now text d w ->
  firstTurn before after cid now text d (run JSON_parse es w).
Proof.
  unfold run. revert w. induction es as [|e es IH]; intros w H Hf; simpl; [exact Hf|].
  simpl in H. apply andb_prop in H as [He Hes].
  apply IH; [exact Hes|]. apply step_firstTurn; assumption.
Qed.

End FirstTurn.

Lemma submit_firstTurn (w0 : World) (before after : list StoredChat.t)
    (cid now token id2 now2 text : string) :
  JS.truthy_string cid = true ->
  chats (sessions w0) = before ++ [freshChat cid now] ++ after ->
  currentChatId (sessions w0) = Some cid ->
  messages (transcript w0) = [] ->
  isLoading (transcript w0) = false ->
  JS.truthy_string token = true ->
  JS.truthy_string (JS.trim text) = true ->
  firstTurn before after cid now text false
    (handleSubmit token id2 now2 (setInput text w0)).
Proof.
  intros Hcid Hch Hcur Hm Hload Htok Htext. unfold handleSubmit.
  cbn [input isLoading transcript setInput onTranscript sessions].
  rewrite Htext, Hload, Htok, Hcur. cbn [truthy_id]. rewrite Hcid. cbn [negb orb].
  unfold firstTurn. simpl. rewrite Hm, Hcur, Hch.
  split; [reflexivity|]. split; [exists []; reflexivity|].
  exists (freshChat cid now). split; [reflexivity|]. simpl. auto 10.
Qed.

(** C9.  In a session that still has the placeholder title ["New Chat"]
    and no stored message, as [createNewChat] makes it, the first turn sets
    the title to the first 20 characters of the user's message: from the
    first update effect after the submission on, through every later event
    of the turn, the stored session carries that title, and the other
    sessions are as they were.  ["How many r's in strawberry?"] gives
    ["How many r's in stra"]. *)
Theorem C9_title_derivation (JSON_parse : string -> option json) :
  generateChatTitle "How many r's in strawberry?" = "How many r's in stra" /\
  (forall s,
     String.prefix (generateChatTitle s) s = true /\
     String.length (generateChatTitle s) = Nat.min 20 (String.length s)) /\
  (forall w cid now,
     chats (sessions (createNewChat cid now w)) =
       chats (sessions w) ++ [freshChat cid now] ++ [] /\
     currentChatId (sessions (createNewChat cid now w)) = Some cid /\
     messages (transcript (createNewChat cid now w)) = [] /\
     StoredChat.title (freshChat cid now) = "New Chat") /\
  (forall w0 before after cid now token id2 now2 text es1 es2,
     JS.truthy_string cid = true ->
     (forall c, In c (before ++ after) -> StoredChat.id c <> cid) ->
     chats (sessions w0) = before ++ [freshChat cid now] ++ after ->
     currentChatId (sessions w0) = Some cid ->
     messages (transcript w0) = [] ->
     isLoading (transcript w0) = false ->
     JS.truthy_string token = true ->
     JS.truthy_string (JS.trim text) = true ->
     forallb isTurnEvent es1 = true ->
     forallb isTurnEvent es2 = true ->
     exists msgs,
       msgs <> [] /\
       chats (sessions
         (run JSON_parse (es1 ++ [UpdateChatEffect] ++ es2)
            (handleSubmit token id2 now2 (setInput text w0)))) =
       before ++
       [{| StoredChat.id := cid; StoredChat.title := generateChatTitle text;
           StoredChat.timestamp := now; StoredChat.messages := msgs |}] ++ after).
Proof.
  split; [reflexivity|].
  split; [intro s; split; [apply slice_to_prefix | apply slice_to_length]|].
  split; [intros w cid now; repeat split|].
  intros w0 before after cid now token id2 now2 text es1 es2
         Hcid Hfresh Hch Hcur Hm Hload Htok Htext He1 He2.
  pose proof (submit_firstTurn w0 before after cid now token id2 now2 text
                Hcid Hch Hcur Hm Hload Htok Htext) as H0.
  unfold run. rewrite !fold_left_app. cbn [fold_left step app].
  eapply (run_firstTurn JSON_parse) in H0; [|exact Hcid|exact Hfresh|exact He1].
  eapply updateCurrentChat_firstTurn in H0; [|exact Hcid|exact Hfresh].
  eapply (run_firstTurn JSON_parse) in H0; [|exact Hcid|exact Hfresh|exact He2].
  destruct H0 as (_ & _ & chat & Hch' & Hid & Hts & [(Hd & _)|(Ht & Hne)]);
    [discriminate|].
  exists (StoredChat.messages chat). split; [exact Hne|].
  unfold run in Hch'. rewrite Hch'. f_equal. f_equal.
  destruct chat as [i t ts ms]. simpl in *. congruence.
Qed.

Lemma C9_title_derivation_witness :
  exists msgs,
    msgs <> [] /\
    chats (sessions
      (run json_parse
         ([] ++ [UpdateChatEffect] ++
          [BeginResponse; Read (unlines sampleLines); UpdateChatEffect; EndSubmit;
           PersistEffect])
         (handleSubmit "token" "chat-2" "t2"
            (setInput "How many r's in strawberry?"
               (createNewChat "chat-1" "t1" (initialWorld None)))))) =
    [] ++
    [{| StoredChat.id := "chat-1"; StoredChat.title := "How many r's in stra";
        StoredChat.timestamp := "t1"; StoredChat.messages := msgs |}] ++ [].
Proof.
  refine (proj2 (proj2 (proj2 (C9_title_derivation json_parse)))
            (createNewChat "chat-1" "t1" (initialWorld None)) [] []
            "chat-1" "t1" "token" "chat-2" "t2"
            "How many r's in strawberry?" []
            [BeginResponse; Read (unlines sampleLines); UpdateChatEffect; EndSubmit;
             PersistEffect]
            eq_refl _ eq_refl eq_refl eq_refl eq_refl eq_refl _ eq_refl eq_refl).
  - intros c [].
  - vm_compute. reflexivity.
Defined.

(** ** Scroll gating and coalescing *)

Lemma appendOrReplace_length (m : Message) (prev : list Message) :
  length prev <= length (appendOrReplaceLastAssistantMessage m prev).
Proof.
  destruct (last_cases prev) as [->|[(l & a & -> & Ha)|(l & u & -> & Hu)]].
  - simpl. lia.
  - rewrite appendOrReplace_last_assistant by exact Ha. rewrite !length_app. simpl. lia.
  - rewrite appendOrReplace_last_user by exact Hu. rewrite !length_app. simpl. lia.
Qed.

Section Growth.

Variable JSON_parse : string -> option json.

Lemma forEachBlock_grows (blocks : list json) (w : World) :
  length (messages (transcript w)) <= length (messages (transcript (forEachBlock blocks w))).
Proof.
  revert w. induction blocks as [|block blocks IH]; intro w; simpl; [lia|].
  destruct (currentMessageRef (transcript w)) as [cur|] eqn:Hc; [|lia].
  pose proof (applyBlock_spec cur block w Hc) as H.
  destruct (decodeBlock block) as [evs|].
  - destruct H as (w' & -> & _ & Hm). specialize (IH w'). rewrite Hm in IH.
    pose proof (appendOrReplace_length (fold_left accumulate evs cur)
                  (messages (transcript w))). lia.
  - rewrite H. lia.
Qed.

Lemma processLine_grows (line : string) (w : World) :
  length (messages (transcript w)) <=
  length (messages (transcript (processLine JSON_parse line w))).
Proof.
  unfold processLine.
  destruct (_ || _); [lia|].
  destruct (JSON_parse _) as [data|]; [|lia].
  destruct (Json.get "type" data) as [ty|]; [|lia].
  destruct (Json.strictEqString ty "content").
  - destruct (Json.get "content" data) as [blocks|]; [|lia].
    destruct (Json.iterate blocks); [|lia].
    apply forEachBlock_grows.
  - destruct (Json.strictEqString ty "message_stop"); simpl; lia.
Qed.

Lemma processChunk_grows (chunk : string) (w : World) :
  length (messages (transcript w)) <=
  length (messages (transcript (processChunk JSON_parse chunk w))).
Proof.
  unfold processChunk. generalize (JS.split_LF chunk) as lines. intro lines.
  revert w. induction lines as [|l ls IH]; intro w; simpl; [lia|].
  pose proof (processLine_grows l w). specialize (IH (processLine JSON_parse l w)). lia.
Qed.

(** From a single-slot queue, [scrollToBottom] leaves exactly one request
    pending, the one it has just made. *)
Lemma scrollToBottom_supersedes (c : Container) (w : World) :
  singleSlot w ->
  framePending (browser (scrollToBottom (Some c) w)) = [frameNext (browser w)] /\
  scrollRef (scrolling (scrollToBottom (Some c) w)) = Some (frameNext (browser w)).
Proof.
  intros [Hp|(h & Hp & Hr)]; unfold scrollToBottom.
  - destruct (scrollRef (scrolling w)); simpl; rewrite Hp; auto.
  - rewrite Hr. simpl. rewrite Hp. simpl. rewrite Pos.eqb_refl. auto.
Qed.

Lemma singleSlot_same (w w' : World) :
  framePending (browser w') = framePending (browser w) ->
  scrollRef (scrolling w') = scrollRef (scrolling w) ->
  singleSlot w -> singleSlot w'.
Proof. unfold singleSlot. intros -> ->. auto. Qed.

Lemma handleSubmit_leaves_queue (token chatId now : string) (w : World) :
  browser (handleSubmit token chatId now w) = browser w /\
  scrolling (handleSubmit token chatId now w) = scrolling w.
Proof.
  unfold handleSubmit. destruct (_ || _); [auto|].
  destruct (negb (JS.truthy_string token)); [auto|].
  destruct (negb (truthy_id _)); auto.
Qed.

(** The queue never holds more than the request [scrollRef] refers to. *)
Lemma step_singleSlot (w : World) (e : Event) :
  singleSlot w -> singleSlot (step JSON_parse w e).
Proof.
  intro Hs. destruct e; simpl;
    try (apply (singleSlot_same w); [reflexivity | reflexivity | exact Hs]).
  - unfold deleteChat. destruct (id_is _ _);
      (apply (singleSlot_same w); [reflexivity | reflexivity | exact Hs]).
  - destruct (handleSubmit_leaves_queue token chatId now w) as [Hb Hsc].
    apply (singleSlot_same w); [rewrite Hb | rewrite Hsc |]; auto.
  - destruct (processChunk_frame JSON_parse chunk w) as (_ & Hsc & Hb & _).
    apply (singleSlot_same w); [rewrite Hb | rewrite Hsc |]; auto.
  - left. unfold endSubmit. simpl.
    destruct Hs as [Hp|(h & Hp & Hr)].
    + destruct (scrollRef (scrolling w)); simpl; rewrite Hp; reflexivity.
    + rewrite Hr. simpl. rewrite Hp. simpl. rewrite Pos.eqb_refl. reflexivity.
  - destruct (persistChats_frame w) as (_ & _ & Hsc).
    apply (singleSlot_same w); [|rewrite Hsc|]; auto.
    unfold persistChats. destruct (0 <? _)%nat; reflexivity.
  - destruct (updateCurrentChat_frame w) as (_ & _ & Hsc & Hb).
    apply (singleSlot_same w); [rewrite Hb | rewrite Hsc |]; auto.
  - unfold autoScroll. destruct (_ && _); [|exact Hs].
    destruct container as [c|]; [|exact Hs].
    destruct (scrollToBottom_supersedes c w Hs) as [Hp Hr].
    right. eauto.
  - unfold handleScroll. destruct container; [|exact Hs].
    destruct (isScrolling _); [exact Hs|].
    apply (singleSlot_same w); [reflexivity | reflexivity | exact Hs].
  - left. apply animationFrame_spec.
Qed.

Lemma run_singleSlot (es : list Event) (w : World) :
  singleSlot w -> singleSlot (run JSON_parse es w).
Proof.
  unfold run. revert w. induction es as [|e es IH]; intros w Hs; simpl; [exact Hs|].
  apply IH. apply step_singleSlot. exact Hs.
Qed.

(** With auto-scroll off, a burst of growth leaves the queue, the
    reference and the count of scrolls as they were. *)
Lemma burst_gated (container : option Container) (chunks : list string) (w : World) :
  isAutoScrollEnabled (scrolling w) = false ->
  browser (run JSON_parse (growthBurst container chunks) w) = browser w /\
  scrolling (run JSON_parse (growthBurst container chunks) w) = scrolling w.
Proof.
  unfold run. revert w. induction chunks as [|chunk rest IH]; intros w Hoff; simpl; [auto|].
  destruct (processChunk_frame JSON_parse chunk w) as (_ & Hsc & Hb & _).
  assert (Hauto : autoScroll container (processChunk JSON_parse chunk w) =
                  processChunk JSON_parse chunk w).
  { unfold autoScroll. rewrite Hsc, Hoff. reflexivity. }
  rewrite Hauto.
  destruct (IH (processChunk JSON_parse chunk w)) as [H1 H2].
  { rewrite Hsc. exact Hoff. }
  rewrite H1, H2. auto.
Qed.

(** With auto-scroll on and a transcript that is not empty, each growth of
    a burst replaces the pending request by a new one. *)
Lemma burst_coalesced (c : Container) (chunks : list string) (w : World) :
  chunks <> [] ->
  isAutoScrollEnabled (scrolling w) = true ->
  0 < length (messages (transcript w)) ->
  singleSlot w ->
  let w' := run JSON_parse (growthBurst (Some c) chunks) w in
  (exists h, framePending (browser w') = [h] /\ scrollRef (scrolling w') = Some h) /\
  scrollToCalls (browser w') = scrollToCalls (browser w) /\
  isAutoScrollEnabled (scrolling w') = true.
Proof.
  unfold run. revert w. induction chunks as [|chunk rest IH]; intros w Hne Hon Hlen Hs;
    [contradiction|].
  cbn [growthBurst flat_map app fold_left step].
  set (w1 := processChunk JSON_parse chunk w).
  destruct (processChunk_frame JSON_parse chunk w) as (_ & Hsc & Hb & _). fold w1 in Hsc, Hb.
  pose proof (processChunk_grows chunk w) as Hg. fold w1 in Hg.
  assert (Hs1 : singleSlot w1).
  { apply (singleSlot_same w); [rewrite Hb | rewrite Hsc |]; auto. }
  assert (Hauto : autoScroll (Some c) w1 = scrollToBottom (Some c) w1).
  { unfold autoScroll. rewrite Hsc, Hon.
    replace (0 <? length (messages (transcript w1)))%nat with true; [reflexivity|].
    symmetry. apply Nat.ltb_lt. lia. }
  rewrite Hauto. set (w2 := scrollToBottom (Some c) w1).
  destruct (scrollToBottom_supersedes c w1 Hs1) as [Hp Hr]. fold w2 in Hp, Hr.
  destruct (scrollToBottom_frame (Some c) w1) as (Ht & _ & _ & Ha & _ & Hcalls).
  fold w2 in Ht, Ha, Hcalls.
  destruct rest as [|chunk2 rest].
  - cbn [flat_map fold_left]. split; [eauto|]. split; [rewrite Hcalls, Hb; reflexivity|].
    rewrite Ha, Hsc. exact Hon.
  - destruct (IH w2) as (H1 & H2 & H3).
    + discriminate.
    + rewrite Ha, Hsc. exact Hon.
    + rewrite Ht. lia.
    + right. eauto.
    + split; [exact H1|]. split; [|exact H3].
      etransitivity; [exact H2|]. rewrite Hcalls, Hb. reflexivity.
Qed.

(** A pending request stays the one pending request, and no scroll runs,
    through every event but the paint and the end of the submission. *)
Lemma step_keeps_request (w : World) (e : Event) :
  keepsRequest e = true ->
  (exists h, framePending (browser w) = [h] /\ scrollRef (scrolling w) = Some h) ->
  (exists h, framePending (browser (step JSON_parse w e)) = [h] /\
             scrollRef (scrolling (step JSON_parse w e)) = Some h) /\
  scrollToCalls (browser (step JSON_parse w e)) = scrollToCalls (browser w).
Proof.
  intros He (h & Hp & Hr).
  assert (Hsame : forall w', browser w' = browser w -> scrolling w' = scrolling w ->
            (exists h', framePending (browser w') = [h'] /\
                        scrollRef (scrolling w') = Some h') /\
            scrollToCalls (browser w') = scrollToCalls (browser w)).
  { intros w' -> ->. eauto. }
  destruct e; try discriminate He; cbn [step].
  - apply Hsame; reflexivity.
  - apply Hsame; reflexivity.
  - apply Hsame; reflexivity.
  - apply Hsame; unfold deleteChat; destruct (id_is _ _); reflexivity.
  - unfold clearAllChats. simpl. eauto.
  - apply Hsame; reflexivity.
  - destruct (handleSubmit_leaves_queue token chatId now w) as [Hb Hsc].
    apply Hsame; assumption.
  - apply Hsame; reflexivity.
  - destruct (processChunk_frame JSON_parse chunk w) as (_ & Hsc & Hb & _).
    apply Hsame; assumption.
  - unfold persistChats. destruct (0 <? _)%nat; simpl; eauto.
  - destruct (updateCurrentChat_frame w) as (_ & _ & Hsc & Hb).
    apply Hsame; assumption.
  - unfold autoScroll. destruct (_ && _); [|eauto].
    destruct container as [c|]; [|simpl; eauto].
    destruct (scrollToBottom_supersedes c w) as [Hp' Hr']; [right; eauto|].
    destruct (scrollToBottom_frame (Some c) w) as (_ & _ & _ & _ & _ & Hcalls).
    eauto.
  - unfold handleScroll. destruct container; [|eauto].
    destruct (isScrolling (scrolling w)); [eauto|]. simpl. eauto.
Qed.

Lemma run_keeps_request (es : list Event) (w : World) :
  forallb keepsRequest es = true ->
  (exists h, framePending (browser w) = [h] /\ scrollRef (scrolling w) = Some h) ->
  (exists h, framePending (browser (run JSON_parse es w)) = [h] /\
             scrollRef (scrolling (run JSON_parse es w)) = Some h) /\
  scrollToCalls (browser (run JSON_parse es w)) = scrollToCalls (browser w).
Proof.
  unfold run. revert w. induction es as [|e es IH]; intros w Hes Hw; simpl; [auto|].
  simpl in Hes. apply andb_prop in Hes as [He Hes].
  destruct (step_keeps_request w e He Hw) as [Hw' Hc].
  destruct (IH _ Hes Hw') as [Hw'' Hc'].
  split; [exact Hw''|]. rewrite Hc'. exact Hc.
Qed.

(** The [finally] block empties the queue of the one request [scrollRef]
    refers to. *)
Lemma endSubmit_cancels (w : World) :
  (exists h, framePending (browser w) = [h] /\ scrollRef (scrolling w) = Some h) ->
  framePending (browser (endSubmit w)) = [] /\
  scrollToCalls (browser (endSubmit w)) = scrollToCalls (browser w).
Proof.
  intros (h & Hp & Hr). unfold endSubmit. simpl. rewrite Hr. simpl. rewrite Hp. simpl.
  rewrite Pos.eqb_refl. auto.
Qed.

End Growth.

(** C7, as claimed, fails: with auto-scroll on, a burst of growth whose
    stream ends before the next paint makes no scroll at all, because the
    [finally] block cancels the request that is pending. *)
Lemma C7_one_scroll_per_burst_counterexample :
  ~ (forall (c : Container) (chunks : list string) (w : World) (between : list Event),
       chunks <> [] ->
       isAutoScrollEnabled (scrolling w) = true ->
       0 < length (messages (transcript w)) ->
       singleSlot w ->
       ~ In AnimationFrame between ->
       scrollToCalls (browser
         (run json_parse (growthBurst (Some c) chunks ++ between ++ [AnimationFrame]) w)) =
       S (scrollToCalls (browser w))).
Proof.
  intro H.
  specialize (H {| scrollTop := 300; scrollHeight := 900; clientHeight := 600 |}
                [unlines sampleLines; unlines sampleLines] sampleWorld [EndSubmit]).
  assert (0 = 1) as Habs; [|discriminate Habs].
  apply H.
  - discriminate.
  - reflexivity.
  - simpl. lia.
  - left. reflexivity.
  - intros [E|[]]. discriminate E.
Qed.

(** C7, amended.  [handleScroll] turns auto-scroll off when the gap under
    the view is 50 pixels or more and on when it is less.  With auto-scroll
    off, a burst of content growth requests no scroll: the queue and the
    count of scrolls are unchanged, and with nothing pending the next paint
    scrolls zero times.  With auto-scroll on, a burst of any length leaves
    exactly one request pending, each new request cancelling the one before,
    and the next paint scrolls exactly once, whatever happens between the
    burst and the paint, unless the submission ends in between: then the
    pending request is cancelled and the paint scrolls zero times.  In no
    state reachable from a page load is more than one request pending, so no
    paint scrolls more than once. *)
Theorem C7_scroll_gating_and_coalescing (JSON_parse : string -> option json) :
  (forall c w,
     isScrolling (scrolling w) = false ->
     ((50 <= scrollHeight c - (scrollTop c + clientHeight c))%Z ->
        isAutoScrollEnabled (scrolling (handleScroll (Some c) w)) = false) /\
     ((scrollHeight c - (scrollTop c + clientHeight c) < 50)%Z ->
        isAutoScrollEnabled (scrolling (handleScroll (Some c) w)) = true)) /\
  (forall container chunks w,
     isAutoScrollEnabled (scrolling w) = false ->
     let w' := run JSON_parse (growthBurst container chunks) w in
     framePending (browser w') = framePending (browser w) /\
     scrollToCalls (browser w') = scrollToCalls (browser w) /\
     (framePending (browser w) = [] ->
        scrollToCalls (browser (animationFrame w')) = scrollToCalls (browser w))) /\
  (forall c chunks w,
     chunks <> [] ->
     isAutoScrollEnabled (scrolling w) = true ->
     0 < length (messages (transcript w)) ->
     singleSlot w ->
     let w' := run JSON_parse (growthBurst (Some c) chunks) w in
     length (framePending (browser w')) = 1 /\
     scrollToCalls (browser w') = scrollToCalls (browser w) /\
     scrollToCalls (browser (animationFrame w')) = S (scrollToCalls (browser w)) /\
     framePending (browser (animationFrame w')) = []) /\
  (forall es stored,
     singleSlot (run JSON_parse es (initialWorld stored)) /\
     length (framePending (browser (run JSON_parse es (initialWorld stored)))) <= 1 /\
     scrollToCalls (browser (run JSON_parse (es ++ [AnimationFrame]) (initialWorld stored))) <=
       S (scrollToCalls (browser (run JSON_parse es (initialWorld stored))))) /\
  (forall c chunks w between,
     chunks <> [] ->
     isAutoScrollEnabled (scrolling w) = true ->
     0 < length (messages (transcript w)) ->
     singleSlot w ->
     forallb keepsRequest between = true ->
     let w' := run JSON_parse (growthBurst (Some c) chunks ++ between) w in
     length (framePending (browser w')) = 1 /\
     scrollToCalls (browser w') = scrollToCalls (browser w) /\
     scrollToCalls (browser (run JSON_parse [AnimationFrame] w')) =
       S (scrollToCalls (browser w)) /\
     framePending (browser (run JSON_parse [EndSubmit] w')) = [] /\
     scrollToCalls (browser (run JSON_parse [EndSubmit; AnimationFrame] w')) =
       scrollToCalls (browser w)).
Proof.
  split; [|split; [|split; [|split]]].
  - intros c w Hsc. unfold handleScroll. rewrite Hsc. simpl. split; intro H.
    + apply Z.ltb_ge. exact H.
    + apply Z.ltb_lt. exact H.
  - intros container chunks w Hoff w'.
    destruct (burst_gated JSON_parse container chunks w Hoff) as [Hb Hs].
    fold w' in Hb, Hs. rewrite Hb.
    split; [reflexivity|]. split; [reflexivity|].
    intro Hp. destruct (animationFrame_spec w') as (_ & _ & _ & _ & Hc & _).
    rewrite Hc, Hb, Hp. reflexivity.
  - intros c chunks w Hne Hon Hlen Hs w'.
    destruct (burst_coalesced JSON_parse c chunks w Hne Hon Hlen Hs)
      as ((h & Hp & _) & Hcalls & _).
    fold w' in Hp, Hcalls.
    destruct (animationFrame_spec w') as (_ & _ & _ & Hq & Hc & _).
    rewrite Hp, Hcalls in *. simpl in Hc. auto.
  - intros es stored.
    assert (H : singleSlot (run JSON_parse es (initialWorld stored))).
    { apply run_singleSlot. left. reflexivity. }
    split; [exact H|].
    assert (E : run JSON_parse (es ++ [AnimationFrame]) (initialWorld stored) =
                animationFrame (run JSON_parse es (initialWorld stored))).
    { unfold run. rewrite fold_left_app. reflexivity. }
    rewrite E.
    destruct (animationFrame_spec (run JSON_parse es (initialWorld stored)))
      as (_ & _ & _ & _ & Hc & _).
    rewrite Hc.
    destruct H as [->|(h & -> & _)]; simpl; lia.
  - intros c chunks w between Hne Hon Hlen Hs Hbetween w'.
    destruct (burst_coalesced JSON_parse c chunks w Hne Hon Hlen Hs) as (Hone & Hcalls & _).
    destruct (run_keeps_request JSON_parse between _ Hbetween Hone) as [Hone' Hcalls'].
    assert (Hw' : w' = run JSON_parse between
                         (run JSON_parse (growthBurst (Some c) chunks) w)).
    { unfold w', run. apply fold_left_app. }
    rewrite <- Hw' in Hone', Hcalls'. rewrite Hcalls in Hcalls'.
    destruct (endSubmit_cancels w' Hone') as [Hq He].
    destruct Hone' as (h & Hp & Hr).
    cbn [run fold_left step].
    destruct (animationFrame_spec w') as (_ & _ & _ & _ & Hc & _).
    destruct (animationFrame_spec (endSubmit w')) as (_ & _ & _ & _ & Hc' & _).
    rewrite Hp in *. rewrite Hc, Hc', Hq, He, Hcalls'. simpl. auto.
Qed.

Lemma C7_scroll_gating_and_coalescing_witness :
  scrollToCalls (browser (animationFrame
    (run json_parse
       (growthBurst (Some {| scrollTop := 0; scrollHeight := 900; clientHeight := 600 |})
          [unlines sampleLines; unlines sampleLines])
       (handleScroll (Some {| scrollTop := 0; scrollHeight := 900; clientHeight := 600 |})
          sampleWorld)))) = 0 /\
  scrollToCalls (browser (animationFrame
    (run json_parse
       (growthBurst (Some {| scrollTop := 300; scrollHeight := 900; clientHeight := 600 |})
          [unlines sampleLines; unlines sampleLines])
       sampleWorld))) = 1 /\
  scrollToCalls (browser (run json_parse [AnimationFrame]
    (run json_parse
       (growthBurst (Some {| scrollTop := 300; scrollHeight := 900; clientHeight := 600 |})
          [unlines sampleLines] ++
        [ScrollEvent (Some {| scrollTop := 0; scrollHeight := 900; clientHeight := 600 |});
         UpdateChatEffect])
       sampleWorld))) = 1.
Proof.
  split; [|split].
  - refine (proj2 (proj2 (proj1 (proj2 (C7_scroll_gating_and_coalescing json_parse))
              (Some {| scrollTop := 0; scrollHeight := 900; clientHeight := 600 |})
              [unlines sampleLines; unlines sampleLines]
              (handleScroll
                 (Some {| scrollTop := 0; scrollHeight := 900; clientHeight := 600 |})
                 sampleWorld) _)) _).
    + refine (proj1 (proj1 (C7_scroll_gating_and_coalescing json_parse)
                {| scrollTop := 0; scrollHeight := 900; clientHeight := 600 |}
                sampleWorld eq_refl) _).
      simpl. lia.
    + reflexivity.
  - refine (proj1 (proj2 (proj2 (proj1 (proj2 (proj2
              (C7_scroll_gating_and_coalescing json_parse)))
              {| scrollTop := 300; scrollHeight := 900; clientHeight := 600 |}
              [unlines sampleLines; unlines sampleLines] sampleWorld _ eq_refl _ _)))).
    + discriminate.
    + simpl. lia.
    + left. reflexivity.
  - refine (proj1 (proj2 (proj2 (proj2 (proj2 (proj2 (proj2
              (C7_scroll_gating_and_coalescing json_parse))))
              {| scrollTop := 300; scrollHeight := 900; clientHeight := 600 |}
              [unlines sampleLines] sampleWorld
              [ScrollEvent (Some {| scrollTop := 0; scrollHeight := 900; clientHeight := 600 |});
               UpdateChatEffect] _ eq_refl _ _ eq_refl)))).
    + discriminate.
    + simpl. lia.
    + left. reflexivity.
Defined.

(* ================================================================== *)
(** * Further properties of the component *)

(** ** Elapsed time *)

(** For a duration of a whole number of seconds from 0 to 2^53 - 1 (the
    numbers JavaScript computes with exactly), [formatElapsedTime] shows the
    minutes only from one minute on, always shows a seconds part between 0
    and 59 that adds up with the minutes to the duration, and writes
    "minute" in the singular exactly for the durations from 60 to 119.  The
    two numbers it prints are below 2^53 as well. *)
Theorem formatElapsedTime_decomposes (seconds : Z) :
  (0 <= seconds < 2 ^ 53)%Z ->
  (0 <= seconds mod 60 < 60)%Z /\
  (0 <= seconds / 60 < 2 ^ 53)%Z /\
  (seconds = 60 * (seconds / 60) + seconds mod 60)%Z /\
  formatElapsedTime seconds =
    if (seconds <? 60)%Z then (Number.toString seconds ++ " seconds")%string
    else (Number.toString (seconds / 60)
          ++ (if (seconds <? 120)%Z then " minute " else " minutes ")
          ++ Number.toString (seconds mod 60) ++ " seconds")%string.
Proof.
  intros [Hs Hmax].
  split; [apply Z.mod_pos_bound; lia|].
  split.
  { split; [apply Z.div_pos; lia|].
    apply Z.div_lt_upper_bound; [lia|].
    apply (Z.lt_le_trans _ (2 ^ 53)); [exact Hmax|].
    apply (Z.le_trans _ (1 * 2 ^ 53)); [apply Z.eq_le_incl; ring|].
    apply Z.mul_le_mono_nonneg_r; [apply Z.pow_nonneg|]; lia. }
  split; [apply Z.div_mod; lia|].
  unfold formatElapsedTime. rewrite Z.rem_mod_nonneg by lia.
  destruct (seconds <? 60)%Z eqn:E60.
  - apply Z.ltb_lt in E60.
    rewrite Z.div_small by lia. rewrite Z.mod_small by lia. reflexivity.
  - apply Z.ltb_ge in E60.
    assert (1 <= seconds / 60)%Z by (apply Z.div_le_lower_bound; lia).
    replace (seconds / 60 =? 0)%Z with false by (symmetry; apply Z.eqb_neq; lia).
    destruct (seconds <? 120)%Z eqn:E120.
    + apply Z.ltb_lt in E120.
      assert (seconds / 60 < 2)%Z by (apply Z.div_lt_upper_bound; lia).
      replace (1 <? seconds / 60)%Z with false by (symmetry; apply Z.ltb_ge; lia).
      reflexivity.
    + apply Z.ltb_ge in E120.
      assert (2 <= seconds / 60)%Z by (apply Z.div_le_lower_bound; lia).
      replace (1 <? seconds / 60)%Z with true by (symmetry; apply Z.ltb_lt; lia).
      reflexivity.
Qed.

Lemma formatElapsedTime_decomposes_witness :
  formatElapsedTime 75 = "1 minute 15 seconds" /\
  formatElapsedTime 125 = "2 minutes 5 seconds" /\
  formatElapsedTime 1 = "1 seconds".
Proof.
  split; [|split].
  - exact (proj2 (proj2 (proj2 (formatElapsedTime_decomposes 75 ltac:(lia))))).
  - exact (proj2 (proj2 (proj2 (formatElapsedTime_decomposes 125 ltac:(lia))))).
  - exact (proj2 (proj2 (proj2 (formatElapsedTime_decomposes 1 ltac:(lia))))).
Defined.

(** ** Identifiers *)

Lemma toString16_digit (v : nat) :
  v < 16 ->
  exists c, Number.toString16 v = String c EmptyString /\ isHexDigit c = true.
Proof.
  intro H.
  do 16 (destruct v as [|v]; [eexists; split; reflexivity|]).
  lia.
Qed.

Lemma toString16_variant (r : nat) :
  r < 16 ->
  exists c, Number.toString16 (Nat.lor (Nat.land r 3) 8) = String c EmptyString /\
            isVariantDigit c = true.
Proof.
  intro H.
  do 16 (destruct r as [|r];
         [match goal with
          | |- exists c, ?t = _ /\ _ =>
              let v := eval vm_compute in t in
              match v with
              | String ?c _ => exists c; split; [vm_compute; reflexivity | reflexivity]
              end
          end|]).
  lia.
Qed.

Lemma replaceXY_fits (random : nat -> nat) (template : string) :
  (forall k, random k < 16) ->
  forall k, fitsTemplate template (replaceXY random k template) = true.
Proof.
  intro Hr. induction template as [|c rest IH]; intro k; [reflexivity|].
  cbn [replaceXY].
  destruct (Ascii.eqb c "x") eqn:Ex.
  - cbn [orb]. destruct (toString16_digit (random k) (Hr k)) as (d & -> & Hd).
    cbn [String.append fitsTemplate]. rewrite Ex, Hd, IH. reflexivity.
  - destruct (Ascii.eqb c "y") eqn:Ey.
    + cbn [orb]. destruct (toString16_variant (random k) (Hr k)) as (d & -> & Hd).
      cbn [String.append fitsTemplate]. rewrite Ex, Ey, Hd, IH. reflexivity.
    + cbn [orb fitsTemplate]. rewrite Ex, Ey, Ascii.eqb_refl, IH. reflexivity.
Qed.

Lemma fitsTemplate_length (template out : string) :
  fitsTemplate template out = true -> String.length out = String.length template.
Proof.
  revert out. induction template as [|t ts IH]; intros [|c cs]; simpl; try discriminate.
  - reflexivity.
  - intro H. apply andb_prop in H as [_ H]. now rewrite (IH cs H).
Qed.

Lemma fitsTemplate_get (template out : string) :
  fitsTemplate template out = true ->
  forall i c, String.get i template = Some c ->
    Ascii.eqb c "x" = false -> Ascii.eqb c "y" = false ->
    String.get i out = Some c.
Proof.
  revert out. induction template as [|t ts IH]; intros [|o os] H i c Hg Hx Hy;
    try discriminate.
  cbn [fitsTemplate] in H. apply andb_prop in H as [Hhead Htail].
  destruct i as [|i]; cbn [String.get] in Hg |- *.
  - injection Hg as ->. rewrite Hx, Hy in Hhead.
    apply Ascii.eqb_eq in Hhead. now subst.
  - eapply IH; eassumption.
Qed.

(** The fallback generator always yields a text of the shape of a version 4
    UUID: 36 characters, hyphens after the 8th, 13th, 18th and 23rd, the
    digit 4 in the version position, one of 8, 9, a, b in the variant
    position and lower-case hexadecimal digits elsewhere.  So a chat
    identifier drawn this way is never the empty string, which
    [updateCurrentChat] and [handleSubmit] would take for no session. *)
Theorem generateUUID_shape (random : nat -> nat) :
  (forall k, random k < 16) ->
  fitsTemplate uuidTemplate (generateUUID random) = true /\
  String.length (generateUUID random) = 36 /\
  String.get 8 (generateUUID random) = Some "-"%char /\
  String.get 13 (generateUUID random) = Some "-"%char /\
  String.get 14 (generateUUID random) = Some "4"%char /\
  String.get 18 (generateUUID random) = Some "-"%char /\
  String.get 23 (generateUUID random) = Some "-"%char /\
  truthy_id (Some (drawChatId None random)) = true.
Proof.
  intro Hr. pose proof (replaceXY_fits random uuidTemplate Hr 0) as Hfit.
  unfold drawChatId, generateUUID.
  generalize dependent (replaceXY random 0 uuidTemplate). intros u Hfit.
  pose proof (fitsTemplate_length _ _ Hfit) as Hlen.
  split; [exact Hfit|]. split; [exact Hlen|].
  split; [apply (fitsTemplate_get _ _ Hfit 8); reflexivity|].
  split; [apply (fitsTemplate_get _ _ Hfit 13); reflexivity|].
  split; [apply (fitsTemplate_get _ _ Hfit 14); reflexivity|].
  split; [apply (fitsTemplate_get _ _ Hfit 18); reflexivity|].
  split; [apply (fitsTemplate_get _ _ Hfit 23); reflexivity|].
  destruct u; [discriminate Hlen | reflexivity].
Qed.

Lemma generateUUID_shape_witness :
  fitsTemplate uuidTemplate (generateUUID (fun k => Nat.modulo (7 * k + 3) 16)) = true /\
  String.length (generateUUID (fun k => Nat.modulo (7 * k + 3) 16)) = 36.
Proof.
  assert (H : forall k, Nat.modulo (7 * k + 3) 16 < 16)
    by (intro k; apply Nat.mod_upper_bound; discriminate).
  split.
  - exact (proj1 (generateUUID_shape _ H)).
  - exact (proj1 (proj2 (generateUUID_shape _ H))).
Defined.

(** ** What a stream leaves in the message *)





(** ** Lines and blocks that are skipped *)

(** Only a line that begins with the six characters ["data: "] is decoded.
    Any other line, be it blank, a comment, a field of another name, or
    [data:] with no space after the colon, leaves the state as it is and
    gives no event; and the test for a blank line in the guard of
    [processLine] never decides, the test for the prefix implies it. *)
Theorem only_data_lines_are_decoded
    (JSON_parse : string -> option json) (line : string) :
  (negb (JS.truthy_string (JS.trim line)) || negb (JS.startsWith "data: " line) =
   negb (JS.startsWith "data: " line)) /\
  (JS.startsWith "data: " line = false ->
     (forall w, processLine JSON_parse line w = w) /\
     decodeLine JSON_parse line = []).
Proof.
  split; [apply processLine_guard|].
  intro H. split.
  - intro w. unfold processLine. rewrite processLine_guard, H. reflexivity.
  - unfold decodeLine. rewrite H. reflexivity.
Qed.

Lemma only_data_lines_are_decoded_witness :
  processLine json_parse (wire "data:{'type':'content','content':[{'text':'42'}]}")
    sampleWorld = sampleWorld /\
  processLine json_parse (wire " data: {'type':'content','content':[{'text':'42'}]}")
    sampleWorld = sampleWorld.
Proof.
  split.
  - exact (proj1 (proj2 (only_data_lines_are_decoded json_parse
             (wire "data:{'type':'content','content':[{'text':'42'}]}")) eq_refl)
             sampleWorld).
  - exact (proj1 (proj2 (only_data_lines_are_decoded json_parse
             (wire " data: {'type':'content','content':[{'text':'42'}]}")) eq_refl)
             sampleWorld).
Defined.

Lemma decodeBlock_unreadable (block : json) :
  decodeBlock block = None <-> block = JNull.
Proof.
  split.
  - unfold decodeBlock. destruct block; simpl; try discriminate; [reflexivity|].
    destruct (_ && _); [discriminate|]. destruct (Json.truthy _); discriminate.
  - intros ->. reflexivity.
Qed.

(** A [null] among the blocks of a record ends the record: it is the one
    block whose fields cannot be read, the blocks before it stay applied
    and the blocks after it are never looked at. *)
Theorem null_block_ends_the_record (pre post : list json) (w : World) :
  (forall block, decodeBlock block = None <-> block = JNull) /\
  forEachBlock (pre ++ JNull :: post) w = forEachBlock pre w /\
  forall m, fold_left accumulate (decodeBlocks (pre ++ JNull :: post)) m =
            fold_left accumulate (decodeBlocks pre) m.
Proof.
  split; [apply decodeBlock_unreadable|]. split.
  - revert w. induction pre as [|b pre IH]; intro w; cbn [app forEachBlock].
    + destruct (currentMessageRef (transcript w)); reflexivity.
    + destruct (currentMessageRef (transcript w)) as [cur|]; [|reflexivity].
      destruct (applyBlock cur b w); [apply IH | reflexivity].
  - induction pre as [|b pre IH]; intro m; cbn [app decodeBlocks].
    + reflexivity.
    + destruct (decodeBlock b); [|reflexivity].
      rewrite !fold_left_app. apply IH.
Qed.

(** ** Submissions *)

Lemma accepted_spec (token : string) (w : World) :
  accepted token w = true <->
  JS.truthy_string (JS.trim (input (transcript w))) = true /\
  isLoading (transcript w) = false /\
  JS.truthy_string token = true.
Proof.
  unfold accepted. rewrite !andb_true_iff, negb_true_iff. tauto.
Qed.

Lemma handleSubmit_rejected (token chatId now : string) (w : World) :
  accepted token w = false -> handleSubmit token chatId now w = w.
Proof.
  unfold accepted, handleSubmit. intro H.
  destruct (JS.truthy_string (JS.trim (input (transcript w)))); [|reflexivity].
  destruct (isLoading (transcript w)); [reflexivity|].
  simpl in H. rewrite H. reflexivity.
Qed.

Lemma handleSubmit_transcript (token chatId now : string) (w : World) :
  accepted token w = true ->
  transcript (handleSubmit token chatId now w) =
    {| messages := messages (transcript w) ++ [userMessageOf (input (transcript w))];
       input := ""; isLoading := true;
       openThinking := openThinking (transcript w);
       isThinkingComplete := false;
       currentMessageRef := currentMessageRef (transcript w);
       closureLength := length (messages (transcript w)) |}.
Proof.
  intro H. apply accepted_spec in H as (Ht & Hl & Hk).
  unfold handleSubmit. rewrite Ht, Hl, Hk. cbn [negb orb].
  destruct (negb (truthy_id _)); reflexivity.
Qed.

Lemma step_keeps_loading (JSON_parse : string -> option json) (w : World) (e : Event) :
  e <> EndSubmit ->
  isLoading (transcript w) = true ->
  isLoading (transcript (step JSON_parse w e)) = true.
Proof.
  intros He Hl. destruct e; simpl; try exact Hl.
  - unfold deleteChat. destruct (id_is _ _); exact Hl.
  - rewrite handleSubmit_rejected; [exact Hl|].
    unfold accepted. rewrite Hl. apply andb_false_intro1. apply andb_false_r.
  - destruct (processChunk_frame JSON_parse chunk w) as (_ & _ & _ & _ & -> & _).
    exact Hl.
  - contradiction.
  - destruct (persistChats_frame w) as (-> & _). exact Hl.
  - destruct (updateCurrentChat_frame w) as (-> & _). exact Hl.
  - destruct (autoScroll_frame container w) as (-> & _). exact Hl.
  - unfold handleScroll. destruct container; [|exact Hl].
    destruct (isScrolling _); exact Hl.
  - destruct (animationFrame_spec w) as (-> & _). exact Hl.
Qed.

Lemma run_keeps_loading (JSON_parse : string -> option json) (es : list Event) (w : World) :
  ~ In EndSubmit es ->
  isLoading (transcript w) = true ->
  isLoading (transcript (run JSON_parse es w)) = true.
Proof.
  unfold run. revert w. induction es as [|e es IH]; intros w Hn Hl; simpl; [exact Hl|].
  apply IH.
  - intro Hin. apply Hn. right. exact Hin.
  - apply step_keeps_loading; [|exact Hl]. intros ->. apply Hn. left. reflexivity.
Qed.

(** A submission that finds no text, a submission already running or no
    token changes nothing at all.  One that goes ahead blocks every other
    until its [finally] block has run: whatever happens in between, a
    further submission is refused and the running one is not cancelled. *)
Theorem one_submission_at_a_time
    (JSON_parse : string -> option json) (w : World) (token chatId now : string) :
  (accepted token w = false -> handleSubmit token chatId now w = w) /\
  (accepted token w = true ->
     forall es token2 chatId2 now2,
       ~ In EndSubmit es ->
       step JSON_parse (run JSON_parse es (handleSubmit token chatId now w))
         (Submit token2 chatId2 now2) =
       run JSON_parse es (handleSubmit token chatId now w)).
Proof.
  split; [apply handleSubmit_rejected|].
  intros Hacc es token2 chatId2 now2 Hn. simpl.
  apply handleSubmit_rejected.
  unfold accepted. rewrite (run_keeps_loading JSON_parse es _ Hn).
  - apply andb_false_intro1. apply andb_false_r.
  - rewrite (handleSubmit_transcript token chatId now w Hacc). reflexivity.
Qed.

Lemma one_submission_at_a_time_witness :
  handleSubmit "" "chat-2" "t2" (setInput "Hi" (initialWorld None)) =
    setInput "Hi" (initialWorld None) /\
  step json_parse
    (run json_parse [BeginResponse; Read (unlines sampleLines); TypeInput "again"]
       (handleSubmit "token" "chat-2" "t2" (setInput "Hi" (initialWorld None))))
    (Submit "token" "chat-3" "t3") =
  run json_parse [BeginResponse; Read (unlines sampleLines); TypeInput "again"]
    (handleSubmit "token" "chat-2" "t2" (setInput "Hi" (initialWorld None))).
Proof.
  split.
  - exact (proj1 (one_submission_at_a_time json_parse
             (setInput "Hi" (initialWorld None)) "" "chat-2" "t2") eq_refl).
  - refine (proj2 (one_submission_at_a_time json_parse
             (setInput "Hi" (initialWorld None)) "token" "chat-2" "t2") eq_refl
             [BeginResponse; Read (unlines sampleLines); TypeInput "again"]
             "token" "chat-3" "t3" _).
    simpl. intros [H|[H|[H|[]]]]; discriminate H.
Defined.




Lemma run_app (JSON_parse : string -> option json) (es1 es2 : list Event) (w : World) :
  run JSON_parse (es1 ++ es2) w = run JSON_parse es2 (run JSON_parse es1 w).
Proof. unfold run. apply fold_left_app. Qed.



(** A request that fails before the response begins (the [catch] and
    [finally] blocks run, the placeholder is never made) keeps the text
    typed in the transcript, adds no assistant message, and lets the user
    submit again. *)
Theorem failed_request_keeps_user_message
    (JSON_parse : string -> option json) (w : World) (token chatId now : string)
    (es0 : list Event) :
  accepted token w = true ->
  forallb isEffect es0 = true ->
  let w' := run JSON_parse ([Submit token chatId now] ++ es0 ++ [EndSubmit]) w in
  messages (transcript w') =
    messages (transcript w) ++ [userMessageOf (input (transcript w))] /\
  currentMessageRef (transcript w') = currentMessageRef (transcript w) /\
  isLoading (transcript w') = false /\
  (forall text token2,
     JS.truthy_string (JS.trim text) = true -> JS.truthy_string token2 = true ->
     accepted token2 (setInput text w') = true).
Proof.
  intros Hacc H0 w'. subst w'. rewrite !run_app.
  change (run JSON_parse [Submit token chatId now] w) with (handleSubmit token chatId now w).
  set (w1 := handleSubmit token chatId now w).
  pose proof (handleSubmit_transcript token chatId now w Hacc) as Ht1. fold w1 in Ht1.
  set (w2 := run JSON_parse es0 w1).
  destruct (effects_frame JSON_parse es0 H0 w1) as [Ht2 _]. fold w2 in Ht2.
  change (run JSON_parse [EndSubmit] w2) with (endSubmit w2).
  assert (He : messages (transcript (endSubmit w2)) = messages (transcript w2) /\
               currentMessageRef (transcript (endSubmit w2)) =
                 currentMessageRef (transcript w2) /\
               isLoading (transcript (endSubmit w2)) = false).
  { unfold endSubmit. simpl. destruct (scrollRef _); simpl; auto. }
  destruct He as (Hm & Hc & Hl).
  rewrite Hm, Hc, Ht2, Ht1. simpl.
  split; [reflexivity|]. split; [reflexivity|]. split; [exact Hl|].
  intros text token2 Htx Htk. apply accepted_spec. simpl.
  split; [exact Htx|]. split; [|exact Htk].
  unfold endSubmit. simpl. destruct (scrollRef _); reflexivity.
Qed.

Lemma failed_request_keeps_user_message_witness :
  messages (transcript
    (run json_parse ([Submit "token" "chat-2" "t2"] ++ [UpdateChatEffect] ++ [EndSubmit])
       (setInput "Hi" (initialWorld None)))) =
  [] ++ [userMessageOf "Hi"].
Proof.
  exact (proj1 (failed_request_keeps_user_message json_parse
                  (setInput "Hi" (initialWorld None)) "token" "chat-2" "t2"
                  [UpdateChatEffect] eq_refl eq_refl)).
Defined.

(** The request of an accepted submission carries, in order, exactly the
    messages the transcript holds once the text typed is appended, each as
    its content and role: the thinking text of earlier answers is never
    sent. *)
Theorem request_mirrors_transcript (w : World) (token chatId now : string) :
  accepted token w = true ->
  requestMessages w =
    map (fun msg => (content msg, role msg))
      (messages (transcript (handleSubmit token chatId now w))) /\
  length (requestMessages w) = S (length (messages (transcript w))).
Proof.
  intro Hacc. rewrite (handleSubmit_transcript token chatId now w Hacc).
  unfold requestMessages. simpl. split; [reflexivity|].
  rewrite length_map, length_app. simpl. lia.
Qed.

Lemma request_mirrors_transcript_witness :
  requestMessages (setInput "How?" sampleWorld) =
    map (fun msg => (content msg, role msg))
      (messages (transcript
         (handleSubmit "token" "chat-9" "t9" (setInput "How?" (endSubmit sampleWorld))))).
Proof.
  exact (proj1 (request_mirrors_transcript (setInput "How?" (endSubmit sampleWorld))
                  "token" "chat-9" "t9" eq_refl)).
Defined.

(** ** The thinking panel *)



Lemma step_stream_closure (JSON_parse : string -> option json) (w : World) (e : Event) :
  isStreamEvent e = true ->
  closureLength (transcript (step JSON_parse w e)) = closureLength (transcript w).
Proof.
  intro He. destruct e eqn:E; try discriminate;
    try (rewrite <- E; rewrite step_keeps_transcript;
         [auto | rewrite E; reflexivity | intro; rewrite E; discriminate]).
  simpl. destruct (processChunk_frame JSON_parse chunk w) as (_ & _ & _ & _ & _ & ->).
  reflexivity.
Qed.




(** ** Streams that outlive their session *)


(** The update effect on a world whose current session is the one session
    of that identifier. *)
Lemma updateCurrentChat_at (w : World) (cid : string) (before after : list StoredChat.t)
    (chat : StoredChat.t) (m0 : Message) (rest : list Message) :
  JS.truthy_string cid = true ->
  currentChatId (sessions w) = Some cid ->
  messages (transcript w) = m0 :: rest ->
  chats (sessions w) = before ++ [chat] ++ after ->
  StoredChat.id chat = cid ->
  (forall c, In c (before ++ after) -> StoredChat.id c <> cid) ->
  chats (sessions (updateCurrentChat w)) =
    before ++ [updatedChat (m0 :: rest) chat] ++ after.
Proof.
  intros Hcid Hcur Hm Hch Hid Hfresh. unfold updateCurrentChat.
  rewrite Hcur, Hm. cbn [truthy_id length Nat.ltb Nat.leb]. rewrite Hcid.
  cbn [andb sessions setChats onSessions chats].
  rewrite Hch, !map_app. cbn [map id_is app].
  rewrite <- Hid, String.eqb_refl.
  assert (Hkeep : forall l, (forall c, In c l -> StoredChat.id c <> cid) ->
            map (fun c : StoredChat.t =>
                   if String.eqb (StoredChat.id chat) (StoredChat.id c)
                   then {| StoredChat.id := StoredChat.id c;
                           StoredChat.title :=
                             match length (StoredChat.messages c) with
                             | O => generateChatTitle (content m0)
                             | S _ => StoredChat.title c
                             end;
                           StoredChat.timestamp := StoredChat.timestamp c;
                           StoredChat.messages := m0 :: rest |}
                   else c) l = l).
  { intros l Hl. rewrite <- (map_id l) at 2. apply map_ext_in. intros c Hin.
    destruct (String.eqb (StoredChat.id chat) (StoredChat.id c)) eqn:E; [|reflexivity].
    apply String.eqb_eq in E. exfalso. apply (Hl c Hin). congruence. }
  rewrite (Hkeep before), (Hkeep after);
    try (intros c Hin; apply Hfresh; apply in_or_app; auto).
  unfold updatedChat. destruct (StoredChat.messages chat); reflexivity.
Qed.







(** ** Sessions *)

(** A submission made while no session is current creates one under the
    identifier drawn, makes it current, and the update effect stores the
    transcript in it.  The title set from the text typed stands only if the
    transcript was empty: the update effect derives the title again, from
    the first message of the transcript, whoever wrote it. *)
Theorem submit_without_session (w : World) (token chatId now : string) :
  accepted token w = true ->
  truthy_id (currentChatId (sessions w)) = false ->
  JS.truthy_string chatId = true ->
  ~ In chatId (sessionIds w) ->
  let w' := updateCurrentChat (handleSubmit token chatId now w) in
  currentChatId (sessions w') = Some chatId /\
  chats (sessions (handleSubmit token chatId now w)) =
    chats (sessions w) ++
    [{| StoredChat.id := chatId;
        StoredChat.title := generateChatTitle (input (transcript w));
        StoredChat.timestamp := now; StoredChat.messages := [] |}] /\
  chats (sessions w') =
    chats (sessions w) ++
    [{| StoredChat.id := chatId;
        StoredChat.title :=
          generateChatTitle
            (match messages (transcript w) with
             | [] => input (transcript w)
             | m0 :: _ => content m0
             end);
        StoredChat.timestamp := now;
        StoredChat.messages :=
          messages (transcript w) ++ [userMessageOf (input (transcript w))] |}].
Proof.
  intros Hacc Hcur Hid Hfresh w'.
  pose proof (handleSubmit_transcript token chatId now w Hacc) as Ht.
  assert (Hs : sessions (handleSubmit token chatId now w) =
               sessions (setCurrentChatId (Some chatId)
                 (setChats (fun prev => prev ++
                    [{| StoredChat.id := chatId;
                        StoredChat.title := generateChatTitle (input (transcript w));
                        StoredChat.timestamp := now; StoredChat.messages := [] |}]) w))).
  { apply accepted_spec in Hacc as (H1 & H2 & H3).
    unfold handleSubmit. rewrite H1, H2, H3, Hcur. reflexivity. }
  assert (Hcur' : currentChatId (sessions w') = Some chatId).
  { subst w'. destruct (updateCurrentChat_frame (handleSubmit token chatId now w))
      as (_ & -> & _). rewrite Hs. reflexivity. }
  split; [exact Hcur'|]. split; [rewrite Hs; reflexivity|].
  subst w'.
  destruct (messages (transcript w)) as [|m0 rest] eqn:Hm.
  - rewrite (updateCurrentChat_at _ chatId (chats (sessions w)) []
               {| StoredChat.id := chatId;
                  StoredChat.title := generateChatTitle (input (transcript w));
                  StoredChat.timestamp := now; StoredChat.messages := [] |}
               (userMessageOf (input (transcript w))) []);
      try reflexivity; try assumption.
    + rewrite Hs. reflexivity.
    + rewrite Ht. reflexivity.
    + rewrite Hs. reflexivity.
    + intros x Hin Hx. rewrite app_nil_r in Hin. apply Hfresh.
      unfold sessionIds. rewrite <- Hx. apply in_map. exact Hin.
  - rewrite (updateCurrentChat_at _ chatId (chats (sessions w)) []
               {| StoredChat.id := chatId;
                  StoredChat.title := generateChatTitle (input (transcript w));
                  StoredChat.timestamp := now; StoredChat.messages := [] |}
               m0 (rest ++ [userMessageOf (input (transcript w))]));
      try reflexivity; try assumption.
    + rewrite Hs. reflexivity.
    + rewrite Ht. reflexivity.
    + rewrite Hs. reflexivity.
    + intros x Hin Hx. rewrite app_nil_r in Hin. apply Hfresh.
      unfold sessionIds. rewrite <- Hx. apply in_map. exact Hin.
Qed.

Lemma submit_without_session_witness :
  chats (sessions (updateCurrentChat
    (handleSubmit "token" "chat-7" "t7"
       (setInput "How many r's in strawberry?" (clearAllChats twoChats))))) =
  [] ++
  [{| StoredChat.id := "chat-7"; StoredChat.title := "How many r's in stra";
      StoredChat.timestamp := "t7";
      StoredChat.messages := [] ++ [userMessageOf "How many r's in strawberry?"] |}].
Proof.
  refine (proj2 (proj2 (submit_without_session
    (setInput "How many r's in strawberry?" (clearAllChats twoChats))
    "token" "chat-7" "t7" eq_refl eq_refl eq_refl _))).
  simpl. intros [].
Defined.

Lemma filter_idem {A : Type} (p : A -> bool) (l : list A) :
  filter p (filter p l) = filter p l.
Proof.
  induction l as [|x l IH]; simpl; [reflexivity|].
  destruct (p x) eqn:E; simpl; [rewrite E, IH; reflexivity | exact IH].
Qed.

Lemma filter_nothing {A : Type} (p : A -> bool) (l : list A) :
  (forall x, In x l -> p x = true) -> filter p l = l.
Proof.
  induction l as [|x l IH]; simpl; intro H; [reflexivity|].
  rewrite (H x (or_introl eq_refl)), IH; [reflexivity|].
  intros y Hy. apply H. right. exact Hy.
Qed.

(** Deleting twice is deleting once, and deleting an identifier that no
    session has (and that is not the current one) only closes the
    confirmation dialog: the sessions, the current session, the transcript
    and the storage stay as they are. *)
Theorem deleteChat_idempotent_and_total (w : World) (chatId : string) :
  deleteChat chatId (deleteChat chatId w) = deleteChat chatId w /\
  (~ In chatId (sessionIds w) ->
   currentChatId (sessions w) <> Some chatId ->
   chats (sessions (deleteChat chatId w)) = chats (sessions w) /\
   currentChatId (sessions (deleteChat chatId w)) = currentChatId (sessions w) /\
   transcript (deleteChat chatId w) = transcript w /\
   browser (deleteChat chatId w) = browser w /\
   chatToDelete (sessions (deleteChat chatId w)) = None).
Proof.
  split.
  - destruct w as [t [chs cur del conf] sc b]. unfold deleteChat. simpl.
    destruct (id_is cur chatId) eqn:E;
      unfold setChatToDelete, setChats, setMessages, setCurrentChatId,
             onSessions, onTranscript; simpl.
    + rewrite filter_idem. reflexivity.
    + rewrite E. simpl. rewrite filter_idem. reflexivity.
  - intros Hnot Hcur. unfold deleteChat.
    destruct (id_is (currentChatId (sessions w)) chatId) eqn:E.
    { apply id_is_spec in E. contradiction. }
    simpl. repeat split.
    apply filter_nothing. intros x Hx. apply negb_true_iff, String.eqb_neq.
    intro Hid. apply Hnot. unfold sessionIds. rewrite <- Hid. apply in_map. exact Hx.
Qed.

Lemma deleteChat_idempotent_and_total_witness :
  chats (sessions (deleteChat "chat-z" twoChats)) = chats (sessions twoChats) /\
  transcript (deleteChat "chat-z" twoChats) = transcript twoChats.
Proof.
  destruct (proj2 (deleteChat_idempotent_and_total twoChats "chat-z")) as (H1 & _ & H3 & _).
  - simpl. intros [H|[H|[]]]; discriminate H.
  - discriminate.
  - split; [exact H1 | exact H3].
Defined.

Lemma unique_by_id (l : list StoredChat.t) (a b : StoredChat.t) :
  NoDup (map StoredChat.id l) -> In a l -> In b l ->
  StoredChat.id a = StoredChat.id b -> a = b.
Proof.
  induction l as [|x l IH]; simpl; intros Hnd Ha Hb Hid; [contradiction|].
  inversion Hnd as [|? ? Hnotin Hnd']; subst.
  destruct Ha as [->|Ha], Hb as [->|Hb].
  - reflexivity.
  - exfalso. apply Hnotin. rewrite Hid. apply in_map. exact Hb.
  - exfalso. apply Hnotin. rewrite <- Hid. apply in_map. exact Ha.
  - apply IH; assumption.
Qed.

(** Selecting a session of the list shows its stored messages and changes
    nothing in the list, also once the update effect has run: while the
    identifiers are distinct, the effect writes back what it has just
    read. *)
Theorem selectChat_leaves_store (w : World) (chat : StoredChat.t) :
  In chat (chats (sessions w)) ->
  NoDup (sessionIds w) ->
  messages (transcript (selectChat chat w)) = StoredChat.messages chat /\
  currentChatId (sessions (selectChat chat w)) = Some (StoredChat.id chat) /\
  chats (sessions (updateCurrentChat (selectChat chat w))) = chats (sessions w).
Proof.
  intros Hin Hnd. split; [reflexivity|]. split; [reflexivity|].
  unfold updateCurrentChat. simpl.
  destruct (JS.truthy_string (StoredChat.id chat) &&
            (0 <? length (StoredChat.messages chat))%nat) eqn:E; [|reflexivity].
  simpl. apply andb_prop in E as [_ Hlen]. apply Nat.ltb_lt in Hlen.
  rewrite <- (map_id (chats (sessions w))) at 2. apply map_ext_in. intros c Hc.
  destruct (String.eqb (StoredChat.id chat) (StoredChat.id c)) eqn:Eid; [|reflexivity].
  apply String.eqb_eq in Eid.
  assert (c = chat) by (apply (unique_by_id (chats (sessions w))); auto).
  subst c. destruct chat as [i t ts ms]. simpl in *.
  destruct ms; [simpl in Hlen; lia | reflexivity].
Qed.

Lemma selectChat_leaves_store_witness :
  chats (sessions (updateCurrentChat
    (selectChat (freshChat "chat-a" "t1") twoChats))) = chats (sessions twoChats).
Proof.
  refine (proj2 (proj2 (selectChat_leaves_store twoChats (freshChat "chat-a" "t1") _ _))).
  - left. reflexivity.
  - unfold sessionIds. simpl.
    constructor; [simpl; intros [H|[]]; discriminate H|].
    constructor; [simpl; tauto | constructor].
Defined.

Lemma distinct_ids_after_filter (keep : StoredChat.t -> bool) (stored : list StoredChat.t) :
  NoDup (map StoredChat.id stored) -> NoDup (map StoredChat.id (filter keep stored)).
Proof.
  intro Hnd. induction stored as [|chat stored IH]; [constructor|].
  inversion Hnd as [|? ? Hnotin Hrest]; subst. simpl.
  destruct (keep chat); [|exact (IH Hrest)].
  simpl. constructor; [|exact (IH Hrest)].
  intro Hin. apply Hnotin. apply in_map_iff in Hin as (other & Hid & Hin).
  apply in_map_iff. exists other. split; [exact Hid|].
  apply filter_In in Hin. tauto.
Qed.

Lemma NoDup_snoc {A : Type} (l : list A) (x : A) :
  NoDup l -> ~ In x l -> NoDup (l ++ [x]).
Proof.
  intros Hl Hx. apply NoDup_app; [exact Hl | repeat constructor; intros [] |].
  intros a Ha [<-|[]]. apply Hx. exact Ha.
Qed.

(** The identifiers of the sessions stay distinct through every event, as
    long as each identifier drawn for a new session is not in use; and a
    page load over a stored list of distinct identifiers starts with
    distinct identifiers. *)
Theorem session_ids_stay_distinct (JSON_parse : string -> option json) :
  (forall w e,
     NoDup (sessionIds w) -> drawsFreshId w e ->
     NoDup (sessionIds (step JSON_parse w e))) /\
  (forall w chatId now,
     NoDup (map StoredChat.id
              (match localStorage (browser w) with Some l => l | None => [] end)) ->
     ~ In chatId (map StoredChat.id
              (match localStorage (browser w) with Some l => l | None => [] end)) ->
     NoDup (sessionIds (restart chatId now w))).
Proof.
  split.
  - intros w e Hnd Hfresh. unfold sessionIds in *.
    destruct e; cbn [step]; cbn [drawsFreshId] in Hfresh; try exact Hnd.
    + simpl. rewrite map_app. apply NoDup_snoc; assumption.
    + rewrite deleteChat_chats. apply distinct_ids_after_filter. exact Hnd.
    + constructor.
    + destruct (accepted token w) eqn:Hacc.
      * pose proof Hacc as Hacc'. apply accepted_spec in Hacc' as (H1 & H2 & H3).
        unfold handleSubmit. rewrite H1, H2, H3. cbn [negb orb].
        destruct (truthy_id (currentChatId (sessions w))) eqn:Hcur; simpl; [exact Hnd|].
        rewrite map_app. apply NoDup_snoc; [exact Hnd|]. apply Hfresh; reflexivity.
      * rewrite handleSubmit_rejected by exact Hacc. exact Hnd.
    + destruct (processChunk_frame JSON_parse chunk w) as (-> & _). exact Hnd.
    + unfold endSubmit. simpl. destruct (scrollRef _); exact Hnd.
    + destruct (persistChats_frame w) as (_ & -> & _). exact Hnd.
    + rewrite updateCurrentChat_ids. exact Hnd.
    + destruct (autoScroll_frame container w) as (_ & -> & _). exact Hnd.
    + unfold handleScroll. destruct container; [|exact Hnd].
      destruct (isScrolling _); exact Hnd.
    + destruct (animationFrame_spec w) as (_ & -> & _). exact Hnd.
  - intros w chatId now Hnd Hfresh. unfold sessionIds, restart, mountEffect. simpl.
    destruct (localStorage (browser w)) as [l|]; simpl.
    + rewrite map_app. apply NoDup_snoc; assumption.
    + repeat constructor. intros [].
Qed.

Lemma session_ids_stay_distinct_witness :
  NoDup (sessionIds (step json_parse twoChats (CreateNewChat "chat-c" "t3"))).
Proof.
  apply (proj1 (session_ids_stay_distinct json_parse) twoChats
           (CreateNewChat "chat-c" "t3")).
  - unfold sessionIds. simpl.
    constructor; [simpl; intros [H|[]]; discriminate H|].
    constructor; [simpl; tauto | constructor].
  - simpl. intros [H|[H|[]]]; discriminate H.
Defined.

Lemma pageLoad_spec (w : World) (fresh : string * string) :
  let stored := match localStorage (browser w) with Some l => l | None => [] end in
  chats (sessions (pageLoad w fresh)) = stored ++ [freshChat (fst fresh) (snd fresh)] /\
  localStorage (browser (pageLoad w fresh)) =
    Some (stored ++ [freshChat (fst fresh) (snd fresh)]) /\
  currentChatId (sessions (pageLoad w fresh)) = Some (fst fresh) /\
  messages (transcript (pageLoad w fresh)) = [].
Proof.
  unfold pageLoad, restart, mountEffect. simpl.
  destruct (localStorage (browser w)) as [l|]; simpl.
  - unfold updateCurrentChat. simpl. rewrite andb_false_r.
    unfold persistChats. simpl. rewrite length_app. simpl.
    replace (0 <? length l + 1)%nat with true by (symmetry; apply Nat.ltb_lt; lia).
    simpl. auto.
  - unfold updateCurrentChat. simpl. rewrite andb_false_r. simpl. auto.
Qed.

(** Every page load adds one empty session behind the stored ones and
    stores the list at once.  Nothing ever prunes an empty session, so a
    page loaded again and again, with no other action, ends with one
    session per load behind what was stored, the last one current. *)
Theorem page_loads_accumulate (w : World) (loads : list (string * string))
    (last : string * string) :
  let stored := match localStorage (browser w) with Some l => l | None => [] end in
  let w' := fold_left pageLoad (loads ++ [last]) w in
  chats (sessions w') =
    stored ++ map (fun fresh => freshChat (fst fresh) (snd fresh)) (loads ++ [last]) /\
  localStorage (browser w') = Some (chats (sessions w')) /\
  currentChatId (sessions w') = Some (fst last) /\
  length (chats (sessions w')) = length stored + S (length loads).
Proof.
  intros stored w'.
  assert (Hgen : forall loads w0,
            let stored0 := match localStorage (browser w0) with Some l => l | None => [] end in
            chats (sessions (fold_left pageLoad (loads ++ [last]) w0)) =
              stored0 ++ map (fun fresh => freshChat (fst fresh) (snd fresh)) (loads ++ [last]) /\
            localStorage (browser (fold_left pageLoad (loads ++ [last]) w0)) =
              Some (chats (sessions (fold_left pageLoad (loads ++ [last]) w0))) /\
            currentChatId (sessions (fold_left pageLoad (loads ++ [last]) w0)) =
              Some (fst last)).
  { clear. induction loads as [|x loads IH]; intros w0 stored0.
    - simpl. destruct (pageLoad_spec w0 last) as (H1 & H2 & H3 & _).
      fold stored0 in H1, H2. rewrite H1, H2, H3. auto.
    - cbn [app fold_left map]. destruct (IH (pageLoad w0 x)) as (H1 & H2 & H3).
      destruct (pageLoad_spec w0 x) as (_ & Hs & _). fold stored0 in Hs.
      rewrite Hs in H1. rewrite H2, H3, H1, <- app_assoc. auto. }
  destruct (Hgen loads w) as (H1 & H2 & H3). fold stored w' in H1, H2, H3.
  split; [exact H1|]. split; [exact H2|]. split; [exact H3|].
  rewrite H1, length_app, length_map, length_app. simpl. lia.
Qed.

(** Running the persist effect or the update effect twice in a row gives
    what running it once gives. *)
Theorem store_effects_are_idempotent (w : World) :
  persistChats (persistChats w) = persistChats w /\
  updateCurrentChat (updateCurrentChat w) = updateCurrentChat w.
Proof.
  split.
  - unfold persistChats. destruct (0 <? length (chats (sessions w)))%nat eqn:E;
      [|rewrite E; reflexivity].
    simpl. rewrite E. destruct w as [t s sc [ls fp fn calls]]. reflexivity.
  - unfold updateCurrentChat.
    destruct (truthy_id (currentChatId (sessions w)) &&
              (0 <? length (messages (transcript w)))%nat) eqn:E; [|rewrite E; reflexivity].
    simpl. rewrite E. destruct w as [t [chs cur del conf] sc b]. simpl in *.
    unfold setChats, onSessions. simpl. f_equal. f_equal.
    rewrite map_map. apply map_ext. intro chat.
    destruct (id_is cur (StoredChat.id chat)) eqn:Eid; simpl; rewrite Eid; [|reflexivity].
    apply andb_prop in E as [_ Hlen]. apply Nat.ltb_lt in Hlen.
    destruct (messages t) as [|m0 rest]; [simpl in Hlen; lia|]. reflexivity.
Qed.

(** A session that has stored messages keeps its place in the list, its
    identifier, its time stamp and its title, and keeps having messages,
    through every event but a deletion and the clearing of the list: the
    title is derived once and never again. *)
Theorem title_is_derived_once
    (JSON_parse : string -> option json) (es : list Event) (w : World)
    (i : nat) (chat : StoredChat.t) :
  forallb (fun e => negb (isRemoval e)) es = true ->
  nth_error (chats (sessions w)) i = Some chat ->
  StoredChat.messages chat <> [] ->
  exists chat',
    nth_error (chats (sessions (run JSON_parse es w))) i = Some chat' /\
    StoredChat.id chat' = StoredChat.id chat /\
    StoredChat.timestamp chat' = StoredChat.timestamp chat /\
    StoredChat.title chat' = StoredChat.title chat /\
    StoredChat.messages chat' <> [].
Proof.
  unfold run. revert w chat. induction es as [|e es IH]; intros w chat Hes Hn Hne.
  - exists chat. simpl. auto.
  - simpl in Hes. apply andb_prop in Hes as [He Hes]. simpl.
    assert (Hstep : exists chat1,
              nth_error (chats (sessions (step JSON_parse w e))) i = Some chat1 /\
              StoredChat.id chat1 = StoredChat.id chat /\
              StoredChat.timestamp chat1 = StoredChat.timestamp chat /\
              StoredChat.title chat1 = StoredChat.title chat /\
              StoredChat.messages chat1 <> []).
    { assert (Hi : i < length (chats (sessions w)))
        by (apply nth_error_Some; rewrite Hn; discriminate).
      destruct e; try discriminate; simpl;
        try (exists chat; split; [exact Hn | auto]).
      - exists chat. split; [|auto]. rewrite nth_error_app1 by exact Hi. exact Hn.
      - exists chat. split; [|auto]. unfold handleSubmit.
        destruct (_ || _); [exact Hn|]. destruct (negb (JS.truthy_string token)); [exact Hn|].
        destruct (negb (truthy_id _)); simpl; [|exact Hn].
        rewrite nth_error_app1 by exact Hi. exact Hn.
      - exists chat. split; [|auto].
        destruct (processChunk_frame JSON_parse chunk w) as (-> & _). exact Hn.
      - exists chat. split; [|auto]. unfold endSubmit. simpl.
        destruct (scrollRef _); exact Hn.
      - exists chat. split; [|auto].
        destruct (persistChats_frame w) as (_ & -> & _). exact Hn.
      - unfold updateCurrentChat.
        destruct (truthy_id (currentChatId (sessions w)) &&
                  (0 <? length (messages (transcript w)))%nat) eqn:E;
          [|exists chat; auto].
        simpl. rewrite nth_error_map, Hn. simpl.
        destruct (id_is (currentChatId (sessions w)) (StoredChat.id chat));
          [|exists chat; auto].
        eexists. split; [reflexivity|]. simpl.
        apply andb_prop in E as [_ Hlen]. apply Nat.ltb_lt in Hlen.
        split; [reflexivity|]. split; [reflexivity|]. split.
        + destruct (StoredChat.messages chat); [contradiction | reflexivity].
        + destruct (messages (transcript w)); [simpl in Hlen; lia | discriminate].
      - exists chat. split; [|auto].
        destruct (autoScroll_frame container w) as (_ & -> & _). exact Hn.
      - exists chat. split; [|auto]. unfold handleScroll.
        destruct container; [|exact Hn]. destruct (isScrolling _); exact Hn.
      - exists chat. split; [|auto].
        destruct (animationFrame_spec w) as (_ & -> & _). exact Hn. }
    destruct Hstep as (chat1 & Hn1 & Hid1 & Hts1 & Ht1 & Hne1).
    destruct (IH _ chat1 Hes Hn1 Hne1) as (chat' & Hn' & Hid' & Hts' & Ht' & Hne').
    exists chat'. split; [exact Hn'|].
    split; [congruence|]. split; [congruence|]. split; [congruence | exact Hne'].
Qed.

Lemma title_is_derived_once_witness :
  exists chat',
    nth_error (chats (sessions
      (run json_parse
         [TypeInput "And now?"; Submit "token" "chat-9" "t9"; UpdateChatEffect;
          BeginResponse; Read (unlines sampleLines); UpdateChatEffect]
         (endSubmit (updateCurrentChat sampleWorld))))) 0 = Some chat' /\
    StoredChat.title chat' = "How many r's in stra".
Proof.
  destruct (title_is_derived_once json_parse
    [TypeInput "And now?"; Submit "token" "chat-9" "t9"; UpdateChatEffect;
     BeginResponse; Read (unlines sampleLines); UpdateChatEffect]
    (endSubmit (updateCurrentChat sampleWorld)) 0
    {| StoredChat.id := "chat-1"; StoredChat.title := "How many r's in stra";
       StoredChat.timestamp := "t1";
       StoredChat.messages :=
         [userMessageOf "How many r's in strawberry?"; placeholder] |}
    eq_refl eq_refl ltac:(discriminate)) as (chat' & Hn & _ & _ & Ht & _).
  exists chat'. split; [exact Hn | exact Ht].
Defined.

(** ** Scrolling *)

Lemma scrollCallbacks_keep_isScrolling (pending : list positive) (w : World) :
  isScrolling (scrolling (fold_left (fun acc _ => scrollCallback acc) pending w)) =
  isScrolling (scrolling w).
Proof.
  revert w. induction pending as [|h rest IH]; intro w; simpl; [reflexivity|].
  rewrite IH. reflexivity.
Qed.

Lemma step_keeps_isScrolling (JSON_parse : string -> option json) (w : World) (e : Event) :
  isScrolling (scrolling (step JSON_parse w e)) = isScrolling (scrolling w).
Proof.
  destruct e; cbn [step]; try reflexivity.
  - unfold deleteChat. destruct (id_is _ _); reflexivity.
  - destruct (handleSubmit_leaves_queue token chatId now w) as [_ ->]. reflexivity.
  - destruct (processChunk_frame JSON_parse chunk w) as (_ & -> & _). reflexivity.
  - unfold endSubmit. simpl. destruct (scrollRef _); reflexivity.
  - destruct (persistChats_frame w) as (_ & _ & ->). reflexivity.
  - destruct (updateCurrentChat_frame w) as (_ & _ & -> & _). reflexivity.
  - apply autoScroll_frame.
  - unfold handleScroll. destruct container; [|reflexivity].
    destruct (isScrolling (scrolling w)) eqn:E; [exact E | simpl; exact E].
  - unfold animationFrame. rewrite scrollCallbacks_keep_isScrolling. reflexivity.
Qed.

(** [isScrolling] is never set: it is false in every state the component
    reaches, the guard of [handleScroll] on it never holds, and every scroll
    event of the mounted container sets auto-scroll by the 50 pixel test
    alone. *)
Theorem isScrolling_is_never_set
    (JSON_parse : string -> option json) (es : list Event)
    (stored : option (list StoredChat.t)) (c : Container) :
  isScrolling (scrolling (run JSON_parse es (initialWorld stored))) = false /\
  isAutoScrollEnabled
    (scrolling (handleScroll (Some c) (run JSON_parse es (initialWorld stored)))) =
    (scrollHeight c - (scrollTop c + clientHeight c) <? 50)%Z.
Proof.
  assert (H : forall w, isScrolling (scrolling w) = false ->
                        isScrolling (scrolling (run JSON_parse es w)) = false).
  { unfold run. induction es as [|e es IH]; intros w Hw; simpl; [exact Hw|].
    apply IH. rewrite step_keeps_isScrolling. exact Hw. }
  specialize (H (initialWorld stored) eq_refl).
  split; [exact H|]. unfold handleScroll. rewrite H. reflexivity.
Qed.

(** The [finally] block of [handleSubmit] cancels the scroll request that
    is pending.  So when a stream ends before the next paint, the scroll
    its last growth had requested never happens, although auto-scroll is
    on; the transcript is not touched. *)
Theorem end_of_stream_cancels_pending_scroll
    (JSON_parse : string -> option json) (c : Container) (chunks : list string) (w : World) :
  chunks <> [] ->
  isAutoScrollEnabled (scrolling w) = true ->
  0 < length (messages (transcript w)) ->
  singleSlot w ->
  let w' := run JSON_parse (growthBurst (Some c) chunks) w in
  length (framePending (browser w')) = 1 /\
  framePending (browser (endSubmit w')) = [] /\
  scrollToCalls (browser (animationFrame (endSubmit w'))) = scrollToCalls (browser w) /\
  messages (transcript (endSubmit w')) = messages (transcript w').
Proof.
  intros Hne Hon Hlen Hs w'.
  destruct (burst_coalesced JSON_parse c chunks w Hne Hon Hlen Hs)
    as ((h & Hp & Hr) & Hcalls & _).
  fold w' in Hp, Hr, Hcalls.
  assert (He : framePending (browser (endSubmit w')) = [] /\
               scrollToCalls (browser (endSubmit w')) = scrollToCalls (browser w') /\
               messages (transcript (endSubmit w')) = messages (transcript w')).
  { unfold endSubmit. simpl. rewrite Hr. simpl. rewrite Hp. simpl.
    rewrite Pos.eqb_refl. auto. }
  destruct He as (He1 & He2 & He3).
  split; [rewrite Hp; reflexivity|]. split; [exact He1|]. split; [|exact He3].
  destruct (animationFrame_spec (endSubmit w')) as (_ & _ & _ & _ & Hc & _).
  rewrite Hc, He1, He2, Hcalls. reflexivity.
Qed.

Lemma end_of_stream_cancels_pending_scroll_witness :
  scrollToCalls (browser (animationFrame (endSubmit
    (run json_parse
       (growthBurst (Some {| scrollTop := 300; scrollHeight := 900; clientHeight := 600 |})
          [unlines sampleLines])
       sampleWorld)))) = 0.
Proof.
  refine (proj1 (proj2 (proj2
    (end_of_stream_cancels_pending_scroll json_parse
       {| scrollTop := 300; scrollHeight := 900; clientHeight := 600 |}
       [unlines sampleLines] sampleWorld _ eq_refl _ _)))).
  - discriminate.
  - simpl. lia.
  - left. reflexivity.
Defined.

(** ** The editor *)

Lemma substring_all_prefix (n : nat) (s : string) :
  String.substring 0 n s = JS.slice_to n s.
Proof.
  revert s. induction n as [|n IH]; intros [|c s]; simpl; try reflexivity.
  now rewrite IH.
Qed.

Lemma slice_to_app (a b : string) :
  JS.slice_to (String.length a) (a ++ b) = a.
Proof. induction a as [|c a IH]; simpl; [destruct b; reflexivity | now rewrite IH]. Qed.

Lemma slice_from_app (a b : string) :
  JS.slice_from (String.length a) (a ++ b) = b.
Proof. induction a as [|c a IH]; simpl; [reflexivity | exact IH]. Qed.

Lemma string_length_app (a b : string) :
  String.length (a ++ b) = String.length a + String.length b.
Proof. induction a as [|c a IH]; simpl; [reflexivity | now rewrite IH]. Qed.

(** [value.slice(0, n)] on a text that begins with [n] characters [a]. *)
Lemma editor_slice_prefix (a b : string) :
  Editor.slice (a ++ b) 0 (Z.of_nat (String.length a)) = a.
Proof.
  unfold Editor.slice. cbn [Z.ltb Z.compare].
  replace (Z.of_nat (String.length a) <? 0)%Z with false
    by (symmetry; apply Z.ltb_ge; lia).
  rewrite string_length_app.
  rewrite Z.min_l by lia. rewrite Z.min_l by lia.
  rewrite Z.sub_0_r, Nat2Z.id. simpl.
  rewrite substring_all_prefix. apply slice_to_app.
Qed.

Lemma endsWith_app (suffix a : string) :
  Editor.endsWith suffix (a ++ suffix) = true.
Proof.
  unfold Editor.endsWith. rewrite string_length_app.
  replace (String.length suffix <=? String.length a + String.length suffix)%nat with true
    by (symmetry; apply Nat.leb_le; lia).
  replace (String.length a + String.length suffix - String.length suffix)
    with (String.length a) by lia.
  rewrite slice_from_app, String.eqb_refl. reflexivity.
Qed.

(** A backtick typed right behind two backticks turns them into a fenced
    block: the two backticks give way to an opening fence, an empty line
    and a closing fence, the text in front and the text behind the
    selection are kept, the selected text is dropped, and the cursor is
    asked for on the empty line between the fences. *)
Theorem third_backtick_makes_a_fence (before selected after : string) (shiftKey : bool) :
  let value := (before ++ "``" ++ selected ++ after)%string in
  let selectionStart := String.length before + 2 in
  let selectionEnd := selectionStart + String.length selected in
  let newValue :=
    (before ++ "```" ++ String JS.LF (String JS.LF "```") ++ after)%string in
  Editor.handleKeyDown "`" shiftKey value selectionStart selectionEnd =
    Editor.CallChange newValue (selectionStart + 2) /\
  JS.slice_to (selectionStart + 2) newValue = (before ++ "```" ++ String JS.LF "")%string /\
  JS.slice_from (selectionStart + 2) newValue = (String JS.LF "```" ++ after)%string.
Proof.
  intros value selectionStart selectionEnd newValue.
  assert (Hlen : String.length (before ++ "``") = selectionStart).
  { rewrite string_length_app. reflexivity. }
  assert (Hbefore : Editor.slice value 0 (Z.of_nat selectionStart) = (before ++ "``")%string).
  { subst value. rewrite <- Hlen.
    replace (before ++ "``" ++ selected ++ after)%string
      with ((before ++ "``") ++ selected ++ after)%string
      by (rewrite string_app_assoc; reflexivity).
    apply editor_slice_prefix. }
  assert (Hcut : Editor.slice value 0 (Z.of_nat selectionStart - 2) = before).
  { subst value selectionStart.
    replace (Z.of_nat (String.length before + 2) - 2)%Z
      with (Z.of_nat (String.length before)) by lia.
    apply editor_slice_prefix. }
  assert (Hafter : JS.slice_from selectionEnd value = after).
  { subst value selectionEnd.
    replace (before ++ "``" ++ selected ++ after)%string
      with (((before ++ "``") ++ selected) ++ after)%string
      by (rewrite !string_app_assoc; reflexivity).
    replace (selectionStart + String.length selected)
      with (String.length ((before ++ "``") ++ selected))
      by (rewrite string_length_app, Hlen; reflexivity).
    apply slice_from_app. }
  split; [|split].
  - unfold Editor.handleKeyDown. cbn [String.eqb Ascii.eqb Bool.eqb andb].
    rewrite Hbefore, endsWith_app, Hcut, Hafter. reflexivity.
  - subst newValue.
    replace (selectionStart + 2) with (String.length (before ++ "```" ++ String JS.LF ""))
      by (rewrite string_length_app; subst selectionStart; simpl; lia).
    replace (before ++ "```" ++ String JS.LF (String JS.LF "```") ++ after)%string
      with ((before ++ "```" ++ String JS.LF "") ++ (String JS.LF "```" ++ after))%string
      by (rewrite string_app_assoc; reflexivity).
    apply slice_to_app.
  - subst newValue.
    replace (selectionStart + 2) with (String.length (before ++ "```" ++ String JS.LF ""))
      by (rewrite string_length_app; subst selectionStart; simpl; lia).
    replace (before ++ "```" ++ String JS.LF (String JS.LF "```") ++ after)%string
      with ((before ++ "```" ++ String JS.LF "") ++ (String JS.LF "```" ++ after))%string
      by (rewrite string_app_assoc; reflexivity).
    apply slice_from_app.
Qed.

Lemma slice_to_from (n : nat) (s : string) :
  (JS.slice_to n s ++ JS.slice_from n s)%string = s.
Proof.
  revert s. induction n as [|n IH]; intros [|c s]; simpl; try reflexivity.
  now rewrite IH.
Qed.

Lemma endsWith_spec (suffix s : string) :
  Editor.endsWith suffix s = true -> exists a, s = (a ++ suffix)%string.
Proof.
  unfold Editor.endsWith. intro H. apply andb_prop in H as [_ H].
  apply String.eqb_eq in H.
  exists (JS.slice_to (String.length s - String.length suffix) s).
  transitivity (JS.slice_to (String.length s - String.length suffix) s ++
                JS.slice_from (String.length s - String.length suffix) s)%string.
  - symmetry. apply slice_to_from.
  - f_equal. exact H.
Qed.

Lemma endsWith_two_backticks (s : string) :
  Editor.endsWith "`" s = false -> Editor.endsWith "``" s = false.
Proof.
  intro H. destruct (Editor.endsWith "``" s) eqn:E; [|reflexivity].
  apply endsWith_spec in E as [a ->].
  replace (a ++ "``")%string with ((a ++ "`") ++ "`")%string in H
    by (rewrite string_app_assoc; reflexivity).
  rewrite endsWith_app in H. discriminate H.
Qed.

(** A backtick typed where the text in front of the cursor does not end in
    a backtick is paired: two backticks take the place of the selection and
    the cursor is asked for between them.  Typed right behind a single
    backtick, it is left to the text area.  Shift+Enter submits; Enter
    alone and every other key are left to the text area. *)
Theorem backtick_pairing (before selected after : string) :
  let value := (before ++ selected ++ after)%string in
  let selectionStart := String.length before in
  let selectionEnd := selectionStart + String.length selected in
  (Editor.endsWith "`" before = false ->
     Editor.handleKeyDown "`" false value selectionStart selectionEnd =
       Editor.CallChange (before ++ "``" ++ after) (selectionStart + 1) /\
     JS.slice_to (selectionStart + 1) (before ++ "``" ++ after) = (before ++ "`")%string /\
     JS.slice_from (selectionStart + 1) (before ++ "``" ++ after) = ("`" ++ after)%string) /\
  (Editor.endsWith "`" before = true -> Editor.endsWith "``" before = false ->
     Editor.handleKeyDown "`" false value selectionStart selectionEnd =
       Editor.LeaveToTextarea) /\
  (forall key,
     Editor.handleKeyDown key true value selectionStart selectionEnd = Editor.CallSubmit <->
     key = "Enter") /\
  (forall key, key <> "`" ->
     Editor.handleKeyDown key false value selectionStart selectionEnd =
       Editor.LeaveToTextarea).
Proof.
  intros value selectionStart selectionEnd.
  assert (Hbefore : Editor.slice value 0 (Z.of_nat selectionStart) = before)
    by apply editor_slice_prefix.
  assert (Hafter : JS.slice_from selectionEnd value = after).
  { subst value selectionEnd selectionStart.
    replace (before ++ selected ++ after)%string
      with ((before ++ selected) ++ after)%string
      by (rewrite string_app_assoc; reflexivity).
    rewrite <- string_length_app. apply slice_from_app. }
  split; [|split; [|split]].
  - intro H. split; [|split].
    + unfold Editor.handleKeyDown. cbn [String.eqb Ascii.eqb Bool.eqb andb].
      rewrite Hbefore, Hafter, (endsWith_two_backticks before H), H. reflexivity.
    + replace (selectionStart + 1) with (String.length (before ++ "`"))
        by (rewrite string_length_app; reflexivity).
      replace (before ++ "``" ++ after)%string with ((before ++ "`") ++ "`" ++ after)%string
        by (rewrite string_app_assoc; reflexivity).
      apply slice_to_app.
    + replace (selectionStart + 1) with (String.length (before ++ "`"))
        by (rewrite string_length_app; reflexivity).
      replace (before ++ "``" ++ after)%string with ((before ++ "`") ++ "`" ++ after)%string
        by (rewrite string_app_assoc; reflexivity).
      apply slice_from_app.
  - intros H1 H2. unfold Editor.handleKeyDown. cbn [String.eqb Ascii.eqb Bool.eqb andb].
    rewrite Hbefore, H2, H1. reflexivity.
  - intro key. unfold Editor.handleKeyDown. rewrite andb_true_r.
    destruct (String.eqb key "Enter") eqn:E.
    + apply String.eqb_eq in E. tauto.
    + apply String.eqb_neq in E. split; [|contradiction].
      destruct (String.eqb key "`"); [|discriminate].
      destruct (Editor.endsWith "``" _); [discriminate|].
      destruct (negb _); discriminate.
  - intros key Hk. unfold Editor.handleKeyDown. rewrite andb_false_r.
    apply String.eqb_neq in Hk. rewrite Hk. reflexivity.
Qed.

Lemma backtick_pairing_witness :
  Editor.handleKeyDown "`" false "see code" 4 4 = Editor.CallChange "see ``code" 5 /\
  Editor.handleKeyDown "`" false "see ` code" 5 5 = Editor.LeaveToTextarea.
Proof.
  split.
  - exact (proj1 (proj1 (backtick_pairing "see " "" "code") eq_refl)).
  - exact (proj1 (proj2 (backtick_pairing "see `" "" " code")) eq_refl eq_refl).
Defined.

(** ** Code blocks *)

Lemma dropFinalLF_app_LF (s : string) : dropFinalLF (s ++ String JS.LF "") = s.
Proof.
  induction s as [|c s IH]; [reflexivity|].
  cbn [String.append dropFinalLF]. rewrite IH.
  destruct (s ++ String JS.LF "")%string eqn:E; [|reflexivity].
  destruct s; discriminate E.
Qed.

Lemma takeWord_app (lang rest : string) :
  takeWord lang = lang -> takeWord rest = "" -> takeWord (lang ++ rest) = lang.
Proof.
  intros Hl Hr. induction lang as [|c lang IH]; simpl in *; [exact Hr|].
  destruct (isWordChar c); [|discriminate Hl].
  injection Hl as Hl. now rewrite IH.
Qed.

Lemma prefix_app (p q : string) : String.prefix p (p ++ q) = true.
Proof.
  induction p as [|c p IH]; simpl; [destruct q; reflexivity|].
  destruct (ascii_dec c c) as [_|n]; [exact IH | exfalso; apply n; reflexivity].
Qed.

Lemma prefix_split (p s : string) :
  String.prefix p s = true -> s = (p ++ JS.slice_from (String.length p) s)%string.
Proof.
  revert s. induction p as [|c p IH]; intros [|d s]; simpl; try reflexivity; try discriminate.
  destruct (ascii_dec c d) as [<-|]; [|discriminate].
  intro H. f_equal. apply IH. exact H.
Qed.

(** Two ways of cutting one text: the shorter first piece begins the
    longer one. *)
Lemma shorter_piece_begins (x y u v : string) :
  (x ++ y = u ++ v)%string -> String.length u <= String.length x ->
  exists e, x = (u ++ e)%string.
Proof.
  revert x. induction u as [|c u IH]; intros x E Hlen; [exists x; reflexivity|].
  destruct x as [|d x]; simpl in Hlen; [lia|].
  simpl in E. injection E as -> E.
  destruct (IH x E ltac:(lia)) as [e ->]. exists e. reflexivity.
Qed.

Lemma takeWord_split (s : string) :
  exists rest, s = (takeWord s ++ rest)%string /\
               takeWord rest = "" /\ takeWord (takeWord s) = takeWord s.
Proof.
  induction s as [|c s (rest & E & Hr & Hw)]; [exists ""; auto|].
  simpl. destruct (isWordChar c) eqn:Ec.
  - exists rest. simpl. rewrite Ec, Hw, <- E. auto.
  - exists (String c s). simpl. rewrite Ec. auto.
Qed.

(** The test [execLanguage] makes at each position: the text from there
    on begins with [language-] and a word character. *)
Lemma language_here (s : string) :
  JS.startsWith "language-" s && JS.truthy_string (takeWord (JS.slice_from 9 s)) = true <->
  exists c q, s = ("language-" ++ String c q)%string /\ isWordChar c = true.
Proof.
  split.
  - intro H. apply andb_prop in H as [Hp Hw].
    apply prefix_split in Hp. change (String.length "language-") with 9 in Hp.
    destruct (JS.slice_from 9 s) as [|c q]; [discriminate Hw|].
    exists c, q. split; [exact Hp|].
    simpl in Hw. destruct (isWordChar c); [reflexivity | discriminate Hw].
  - intros (c & q & -> & Hc).
    unfold JS.startsWith. rewrite prefix_app.
    change 9 with (String.length "language-"). rewrite slice_from_app.
    simpl. rewrite Hc. reflexivity.
Qed.

Lemma execLanguage_step (a : ascii) (s : string) :
  execLanguage (String a s) =
  if JS.startsWith "language-" (String a s) &&
     JS.truthy_string (takeWord (JS.slice_from 9 (String a s)))
  then Some (takeWord (JS.slice_from 9 (String a s)))
  else execLanguage s.
Proof. reflexivity. Qed.

(** No language is found exactly when the class has nowhere the text
    [language-] with a word character behind it. *)
Lemma execLanguage_none (s : string) :
  execLanguage s = None <->
  (forall p c q, s = (p ++ "language-" ++ String c q)%string -> isWordChar c = false).
Proof.
  split.
  - intros H p. revert s H. induction p as [|a p IH]; intros s H c q E.
    + destruct (isWordChar c) eqn:Ec; [|reflexivity].
      assert (Hhere : JS.startsWith "language-" s &&
                      JS.truthy_string (takeWord (JS.slice_from 9 s)) = true).
      { apply language_here. exists c, q. auto. }
      destruct s as [|a s]; [discriminate E|].
      rewrite execLanguage_step, Hhere in H. discriminate H.
    + subst s. change ((String a p ++ "language-" ++ String c q)%string)
        with (String a (p ++ "language-" ++ String c q)%string) in H.
      rewrite execLanguage_step in H.
      destruct (_ && _); [discriminate H|].
      exact (IH _ H c q eq_refl).
  - induction s as [|a s IH]; intro H; [reflexivity|].
    rewrite execLanguage_step.
    destruct (_ && _) eqn:Hhere.
    + apply language_here in Hhere as (c & q & E & Hc).
      rewrite (H "" c q E) in Hc. discriminate Hc.
    + apply IH. intros p c q E. apply (H (String a p) c q). rewrite E. reflexivity.
Qed.

(** The language found is the word behind the leftmost [language-] that
    has a word character behind it. *)
Lemma execLanguage_leftmost (pre lang rest : string) :
  lang <> "" -> takeWord lang = lang -> takeWord rest = "" ->
  (forall p c q, (pre ++ "language-")%string = (p ++ "language-" ++ String c q)%string ->
                 isWordChar c = false) ->
  execLanguage (pre ++ "language-" ++ lang ++ rest) = Some lang.
Proof.
  intros Hne Hw Hr. induction pre as [|a pre IH]; intro Hleft.
  - change ("" ++ "language-" ++ lang ++ rest)%string
      with (String "l" ("anguage-" ++ lang ++ rest)).
    rewrite execLanguage_step.
    change (String "l" ("anguage-" ++ lang ++ rest))
      with ("language-" ++ lang ++ rest)%string.
    unfold JS.startsWith. rewrite prefix_app.
    change 9 with (String.length "language-"). rewrite slice_from_app.
    rewrite (takeWord_app lang rest Hw Hr).
    destruct lang; [contradiction | reflexivity].
  - change ((String a pre ++ "language-" ++ lang ++ rest)%string)
      with (String a (pre ++ "language-" ++ lang ++ rest)%string).
    rewrite execLanguage_step.
    destruct (_ && _) eqn:Hhere.
    + apply language_here in Hhere as (c & q & E & Hc).
      destruct (shorter_piece_begins (String a pre ++ "language-") (lang ++ rest)
                  ("language-" ++ String c "") q) as [e He].
      * rewrite !string_app_assoc. exact E.
      * rewrite !string_length_app. simpl. lia.
      * rewrite (Hleft "" c e) in Hc; [discriminate Hc|].
        rewrite He, string_app_assoc. reflexivity.
    + apply IH. intros p c q E. apply (Hleft (String a p) c q).
      simpl. rewrite E. reflexivity.
Qed.

(** A language that is found is the word behind such a [language-]. *)
Lemma execLanguage_some (s lang : string) :
  execLanguage s = Some lang ->
  exists pre rest,
    s = (pre ++ "language-" ++ lang ++ rest)%string /\
    lang <> "" /\ takeWord lang = lang /\ takeWord rest = "" /\
    (forall p c q, (pre ++ "language-")%string = (p ++ "language-" ++ String c q)%string ->
                   isWordChar c = false).
Proof.
  revert lang. induction s as [|a s IH]; intro lang; [discriminate|].
  rewrite execLanguage_step.
  remember (JS.slice_from 9 (String a s)) as tail eqn:Etail.
  destruct (_ && _) eqn:Hhere.
  - intro H. injection H as <-.
    apply andb_prop in Hhere as [Hp Hw].
    apply prefix_split in Hp. change (String.length "language-") with 9 in Hp.
    rewrite <- Etail in Hp.
    destruct (takeWord_split tail) as (rest & E & Hr & Hww).
    exists "", rest. split; [|split; [|split; [|split]]].
    + rewrite <- E. exact Hp.
    + intro E0. rewrite E0 in Hw. discriminate Hw.
    + exact Hww.
    + exact Hr.
    + intros p c q E0. apply (f_equal String.length) in E0.
      rewrite !string_length_app in E0. simpl in E0. lia.
  - subst tail. intro H. destruct (IH lang H) as (pre & rest & E & Hne & Hw & Hr & Hleft).
    exists (String a pre), rest. split; [rewrite E; reflexivity|].
    split; [exact Hne|]. split; [exact Hw|]. split; [exact Hr|].
    intros [|b p] c q E0.
    + destruct (isWordChar c) eqn:Ec; [|reflexivity].
      assert (Hyes : JS.startsWith "language-" (String a s) &&
                     JS.truthy_string (takeWord (JS.slice_from 9 (String a s))) = true).
      { apply language_here.
        exists c, (q ++ lang ++ rest)%string. split; [|exact Ec].
        transitivity ((String a pre ++ "language-") ++ lang ++ rest)%string.
        - rewrite string_app_assoc, E. reflexivity.
        - rewrite E0. reflexivity. }
      rewrite Hyes in Hhere. discriminate Hhere.
    + simpl in E0. injection E0 as -> E0. exact (Hleft p c q E0).
Qed.

Lemma className_or_empty (className : string) :
  (if JS.truthy_string className then className else "") = className.
Proof. destruct className; reflexivity. Qed.

(** What decides between a highlighted block and inline code.  A class
    that carries the name of a language, anywhere in it, gives a block in
    that language: the name is the word behind the leftmost [language-] that
    a word character follows.  A class that has no such place, or no class,
    leaves the decision to the code: only code of more than one line is a
    block, in the language ["text"], and the line feed that ends the code
    does not count as a second line.  Every class is of one kind or of the
    other.  Code marked inline is never a block.  A block has its copy
    button only while no response is loading. *)
Theorem code_block_or_inline (isLoading inline : bool) (children : string) :
  (forall pre lang rest,
     lang <> "" -> takeWord lang = lang -> takeWord rest = "" ->
     (forall p c q, (pre ++ "language-")%string = (p ++ "language-" ++ String c q)%string ->
                    isWordChar c = false) ->
     codeRenderer isLoading false (Some (pre ++ "language-" ++ lang ++ rest)%string) children =
       CodeBlock lang (dropFinalLF children) (negb isLoading)) /\
  (forall className,
     (forall name p c q, className = Some name ->
        name = (p ++ "language-" ++ String c q)%string -> isWordChar c = false) ->
     codeRenderer isLoading false className children =
       if includesLF (dropFinalLF children)
       then CodeBlock "text" (dropFinalLF children) (negb isLoading)
       else InlineCode className children) /\
  (forall name,
     (forall p c q, name = (p ++ "language-" ++ String c q)%string -> isWordChar c = false) \/
     (exists pre lang rest,
        name = (pre ++ "language-" ++ lang ++ rest)%string /\
        lang <> "" /\ takeWord lang = lang /\ takeWord rest = "" /\
        (forall p c q, (pre ++ "language-")%string = (p ++ "language-" ++ String c q)%string ->
                       isWordChar c = false))) /\
  (forall line,
     includesLF line = false ->
     codeRenderer isLoading false None (line ++ String JS.LF "") =
       InlineCode None (line ++ String JS.LF "")) /\
  (forall className, codeRenderer isLoading true className children =
                     InlineCode className children).
Proof.
  split; [|split; [|split; [|split]]].
  - intros pre lang rest Hne Hw Hr Hleft. unfold codeRenderer.
    rewrite className_or_empty, (execLanguage_leftmost pre lang rest Hne Hw Hr Hleft).
    reflexivity.
  - intros className Hnone. unfold codeRenderer.
    assert (E : execLanguage (match className with
                              | Some c => if JS.truthy_string c then c else ""
                              | None => ""
                              end) = None).
    { destruct className as [name|]; [|reflexivity].
      rewrite className_or_empty. apply execLanguage_none.
      intros p c q. apply Hnone. reflexivity. }
    rewrite E. simpl.
    destruct (includesLF (dropFinalLF children)); reflexivity.
  - intro name. destruct (execLanguage name) as [lang|] eqn:E.
    + right. destruct (execLanguage_some name lang E) as (pre & rest & H).
      exists pre, lang, rest. exact H.
    + left. apply execLanguage_none. exact E.
  - intros line Hline. unfold codeRenderer. cbn [execLanguage negb andb].
    rewrite dropFinalLF_app_LF, Hline. reflexivity.
  - intro className. unfold codeRenderer. reflexivity.
Qed.

Lemma code_block_or_inline_witness :
  codeRenderer false false (Some "hljs language-js dark") ("let x = 1" ++ String JS.LF "") =
    CodeBlock "js" "let x = 1" true /\
  codeRenderer false false (Some "hljs") ("let x = 1" ++ String JS.LF "") =
    InlineCode (Some "hljs") ("let x = 1" ++ String JS.LF "") /\
  codeRenderer false false None ("let x = 1" ++ String JS.LF "") =
    InlineCode None ("let x = 1" ++ String JS.LF "").
Proof.
  split; [|split].
  - refine (eq_trans (proj1 (code_block_or_inline false false
                       ("let x = 1" ++ String JS.LF "")) "hljs " "js" " dark" _ eq_refl eq_refl _) _).
    + discriminate.
    + apply execLanguage_none. reflexivity.
    + reflexivity.
  - refine (eq_trans (proj1 (proj2 (code_block_or_inline false false
                       ("let x = 1" ++ String JS.LF ""))) (Some "hljs") _) _).
    + intros name p c q E. injection E as <-. apply execLanguage_none. reflexivity.
    + reflexivity.
  - exact (proj1 (proj2 (proj2 (proj2 (code_block_or_inline false false ""))))
             "let x = 1" eq_refl).
Defined.

